(** * clip_react backend: a shallow embedding of [backend/main.py]

    The module is a FastAPI application with three POST routes around one
    pretrained open_clip model: [encode_image], [encode_text] and
    [compute_similarity].  The handlers decode their input, call the model,
    divide every feature row by its L2 norm and return a dict.

    Numbers.  Tensor entries are modelled as exact reals extended with one
    non-finite value [NaN]; rounding (bfloat16, float32) and overflow are not
    modelled.  The encoders are taken to return finite entries.

    Libraries.  PIL, json, pydantic, open_clip and torch are parameters of
    the development (class [Libs]); any of their calls may raise.  What is
    assumed of the pretrained model is collected in [model_laws].

    Framework.  FastAPI's part in a request (routing, parameter extraction,
    serialisation, translation of exceptions) is modelled in [app], as far
    as the decorators and signatures of the three handlers call for it. *)

From Stdlib Require Import Reals Lra Lia List String Ascii Bool.
Import ListNotations.

Open Scope string_scope.
Open Scope R_scope.

(* ================================================================== *)
(** ** Tensor arithmetic (torch) *)
(* ================================================================== *)

Module Torch.

(** A tensor entry after an arithmetic operation: a finite real or NaN. *)
Inductive fval : Type :=
| Fin (r : R)
| NaN.

(** A rank-2 tensor is the list of its rows. *)
Definition rows (A : Type) : Type := list (list A).

Definition sum (l : list R) : R := fold_right Rplus 0 l.

Definition dot (u v : list R) : R := sum (map (fun p => fst p * snd p) (combine u v)).

(** [t.norm(dim=-1)] on one row: the square root of the sum of squares. *)
Definition l2norm (row : list R) : R := sqrt (sum (map (fun x => x * x) row)).

(** True division of two entries.  A zero divisor gives a non-finite value
    (0/0 is NaN); every use below divides a row by its own norm, so a zero
    divisor only ever meets zero numerators (lemma [l2norm_zero_entries]). *)
Definition fdiv (a b : R) : fval :=
  if Req_dec_T b 0 then NaN else Fin (a / b).

Definition fmul (a b : fval) : fval :=
  match a, b with
  | Fin x, Fin y => Fin (x * y)
  | _, _ => NaN
  end.

Definition fadd (a b : fval) : fval :=
  match a, b with
  | Fin x, Fin y => Fin (x + y)
  | _, _ => NaN
  end.

(** [t / t.norm(dim=-1, keepdim=True)]: the norm of each row is broadcast
    over that row.  No test on the norm is made. *)
Definition normalize_row (row : list R) : list fval :=
  map (fun x => fdiv x (l2norm row)) row.

Definition normalize (t : rows R) : rows fval := map normalize_row t.

(** [c * t] for a Python float [c]. *)
Definition scale (c : R) (t : rows fval) : rows fval :=
  map (map (fmul (Fin c))) t.

(** Inner product of two rows of entries; [None] when the lengths differ
    (torch raises RuntimeError on a shape mismatch). *)
Fixpoint fdot (u v : list fval) : option fval :=
  match u, v with
  | [], [] => Some (Fin 0)
  | x :: u', y :: v' =>
      match fdot u' v' with
      | Some s => Some (fadd (fmul x y) s)
      | None => None
      end
  | _, _ => None
  end.

Fixpoint traverse {A B : Type} (f : A -> option B) (l : list A) : option (list B) :=
  match l with
  | [] => Some []
  | x :: l' =>
      match f x, traverse f l' with
      | Some y, Some ys => Some (y :: ys)
      | _, _ => None
      end
  end.

(** [a @ b.T]: entry (i, j) is the inner product of row i of [a] with row j
    of [b]. *)
Definition matmul_T (a b : rows fval) : option (rows fval) :=
  traverse (fun ra => traverse (fun rb => fdot ra rb) b) a.

Definition finite (x : fval) : option R :=
  match x with
  | Fin r => Some r
  | NaN => None
  end.

(** Softmax of a row of reals. *)
Definition softmaxR (l : list R) : list R :=
  let s := sum (map exp l) in
  map (fun x => exp x / s) l.

(** [t.softmax(dim=-1)] on one row: a NaN anywhere in the row makes every
    entry of the result NaN. *)
Definition softmax_row (l : list fval) : list fval :=
  match traverse finite l with
  | Some xs => map Fin (softmaxR xs)
  | None => map (fun _ => NaN) l
  end.

Definition softmax (t : rows fval) : rows fval := map softmax_row t.

End Torch.
Import Torch.

Arguments sum l : simpl never.
Arguments l2norm row : simpl never.

(* ================================================================== *)
(** ** Values crossing the HTTP boundary *)
(* ================================================================== *)

#[local] Set Warnings "-register-all".

(** What [json.loads] returns. An object keeps its members as an association
    list, first match wins. *)
Inductive json : Type :=
| JNull
| JBool (b : bool)
| JNumber (x : R)
| JStr (s : string)
| JArr (items : list json)
| JObj (members : list (string * json)).

Fixpoint assoc {A : Type} (k : string) (l : list (string * A)) : option A :=
  match l with
  | [] => None
  | (k', v) :: l' => if String.eqb k k' then Some v else assoc k l'
  end.

(** Exceptions that can leave a handler.  [TokenizerError] and [ModelError]
    stand for whatever the tokenizer or an encoder raises. *)
Inductive exn : Type :=
| UnidentifiedImageError   (* PIL: cannot identify image file *)
| OSError                  (* PIL: the image data cannot be loaded *)
| JSONDecodeError          (* json.loads *)
| TypeError                (* unpacking a non-mapping *)
| ValidationError          (* pydantic *)
| TokenizerError           (* raised inside the tokenizer *)
| ModelError               (* raised inside an encoder *)
| RuntimeError             (* torch: shape mismatch *)
| IndexError               (* indexing an empty tensor *)
| ValueError.              (* a float that JSON cannot carry *)

Inductive result (A : Type) : Type :=
| Ok (a : A)
| Raise (e : exn).
Arguments Ok {A} a.
Arguments Raise {A} e.

(** [class TextInput(BaseModel): text_list: List[str]] *)
Record TextInput : Type := { text_list : list string }.

(** The content of an uploaded file, as [await file.read()] returns it. *)
Definition UploadFile : Type := list Byte.byte.

(** The dict a handler returns. *)
Inductive response : Type :=
| FeaturesResponse (features : rows fval)
| SimilarityResponse (probabilities : list fval) (labels : list string).

(** The JSON object sent to the client. *)
Inductive json_response : Type :=
| JsonFeatures (features : rows R)
| JsonSimilarity (probabilities : list R) (labels : list string).

(* ================================================================== *)
(** ** The imported libraries and the module globals *)
(* ================================================================== *)

(** In this part [None] stands for an exception raised by library code. *)

(** The two encoders of an open_clip model.  Both run under
    [torch.autocast(device, dtype=torch.bfloat16)], so the device is an
    argument. *)
Record clip_model (image_tensor token_row : Type) : Type := {
  model_encode_image : string -> list image_tensor -> option (rows R);
  model_encode_text : string -> list token_row -> option (rows R)
}.
Arguments model_encode_image {image_tensor token_row} c _ _.
Arguments model_encode_text {image_tensor token_row} c _ _.

(** Third-party code the module calls: PIL, json, pydantic's [str]
    validator, open_clip's factory functions and [torch.cuda]. *)
Class Libs : Type := {
  pil_image : Type;
  image_tensor : Type;
  token_row : Type;
  Image_open : list Byte.byte -> option pil_image;
  json_loads : string -> option json;
  str_validate : json -> option string;
  create_model_and_transforms :
    string -> clip_model image_tensor token_row
              * (pil_image -> option image_tensor)
              * (pil_image -> option image_tensor);
  get_tokenizer : string -> list string -> option (list token_row);
  cuda_is_available : bool
}.

Section Backend.
Context {L : Libs}.

(** The names bound at module level (lines 23-26). *)
Record globals : Type := {
  model : clip_model image_tensor token_row;
  preprocess_val : pil_image -> option image_tensor;
  tokenizer : list string -> option (list token_row);
  device : string
}.

Definition MODEL : string := "hf-hub:Marqo/marqo-fashionSigLIP".

(** Module initialisation, run once when the module is imported. *)
Definition startup : globals :=
  let '(m, _, pv) := create_model_and_transforms MODEL in
  {| model := m;
     preprocess_val := pv;
     tokenizer := get_tokenizer MODEL;
     device := if cuda_is_available then "cuda" else "cpu" |}.

(** What the pretrained model guarantees whenever its calls return: the
    batch size is preserved, every feature row has the model's embedding
    width, and that width is positive. *)
Record model_laws (g : globals) (embed_dim : nat) : Prop := {
  embed_dim_pos : (0 < embed_dim)%nat;
  tokenizer_length :
    forall texts toks, tokenizer g texts = Some toks ->
                       List.length toks = List.length texts;
  encode_image_length :
    forall d batch t, model_encode_image (model g) d batch = Some t ->
                      List.length t = List.length batch;
  encode_text_length :
    forall d batch t, model_encode_text (model g) d batch = Some t ->
                      List.length t = List.length batch;
  encode_image_width :
    forall d batch t, model_encode_image (model g) d batch = Some t ->
                      Forall (fun row => List.length row = embed_dim) t;
  encode_text_width :
    forall d batch t, model_encode_text (model g) d batch = Some t ->
                      Forall (fun row => List.length row = embed_dim) t
}.

Definition loaded (g : globals) : Prop := exists embed_dim, model_laws g embed_dim.

(* ------------------------------------------------------------------ *)
(** *** Handlers run in a state-and-exception monad over the globals *)

Definition M (A : Type) : Type := globals -> result A * globals.

Definition ret {A : Type} (a : A) : M A := fun g => (Ok a, g).

Definition bind {A B : Type} (m : M A) (k : A -> M B) : M B :=
  fun g =>
    match m g with
    | (Ok a, g') => k a g'
    | (Raise e, g') => (Raise e, g')
    end.

Definition raise {A : Type} (e : exn) : M A := fun g => (Raise e, g).

(** Reading a global name. *)
Definition gets {A : Type} (f : globals -> A) : M A := fun g => (Ok (f g), g).

(** A library call that raises [e] when it fails. *)
Definition try {A : Type} (e : exn) (o : option A) : M A :=
  match o with
  | Some a => ret a
  | None => raise e
  end.

(** A computation that leaves the globals as it found them. *)
Definition readonly {A : Type} (m : M A) : Prop := forall g, snd (m g) = g.

End Backend.

Declare Scope monad_scope.
Delimit Scope monad_scope with monad.
Notation "x <- m ;; k" := (bind m (fun x => k))
  (at level 100, m at next level, right associativity,
   format "'[v' x  <-  m  ;; '/' k ']'") : monad_scope.
Open Scope monad_scope.

Section Handlers.
Context {L : Libs}.

(* ------------------------------------------------------------------ *)
(** *** pydantic: building a [TextInput] from an unpacked dict *)

(** Validation of the field [text_list: List[str]]: the key must be
    present, its value must be a list, every item must pass the [str]
    validator. Other keys are ignored. *)
Definition TextInput_validate (members : list (string * json)) : option TextInput :=
  match assoc "text_list" members with
  | Some (JArr items) =>
      match traverse str_validate items with
      | Some l => Some {| text_list := l |}
      | None => None
      end
  | _ => None
  end.

(** Line 64, [TextInput] called on the unpacked [text_input_dict]:
    unpacking needs a mapping. *)
Definition TextInput_new (text_input_dict : json) : M TextInput :=
  match text_input_dict with
  | JObj members => try ValidationError (TextInput_validate members)
  | _ => raise TypeError
  end.

(* ------------------------------------------------------------------ *)
(** *** The three handlers (lines 31-88) *)

Definition encode_image (file : UploadFile) : M response :=
  let image_data := file in
  image <- try UnidentifiedImageError (Image_open image_data) ;;
  preprocess <- gets preprocess_val ;;
  tensor <- try OSError (preprocess image) ;;
  let processed_image := [tensor] in
  dev <- gets device ;;
  m <- gets model ;;
  image_features <- try ModelError (model_encode_image m dev processed_image) ;;
  let image_features := normalize image_features in
  ret (FeaturesResponse image_features).

Definition encode_text (text_input : TextInput) : M response :=
  tok <- gets tokenizer ;;
  text <- try TokenizerError (tok (text_list text_input)) ;;
  dev <- gets device ;;
  m <- gets model ;;
  text_features <- try ModelError (model_encode_text m dev text) ;;
  let text_features := normalize text_features in
  ret (FeaturesResponse text_features).

Definition compute_similarity (file : UploadFile) (text_input : string) : M response :=
  text_input_dict <- try JSONDecodeError (json_loads text_input) ;;
  text_input_obj <- TextInput_new text_input_dict ;;
  let image_data := file in
  image <- try UnidentifiedImageError (Image_open image_data) ;;
  preprocess <- gets preprocess_val ;;
  tensor <- try OSError (preprocess image) ;;
  let processed_image := [tensor] in
  tok <- gets tokenizer ;;
  text <- try TokenizerError (tok (text_list text_input_obj)) ;;
  dev <- gets device ;;
  m <- gets model ;;
  image_features <- try ModelError (model_encode_image m dev processed_image) ;;
  text_features <- try ModelError (model_encode_text m dev text) ;;
  let image_features := normalize image_features in
  let text_features := normalize text_features in
  logits <- try RuntimeError (matmul_T (scale 100 image_features) text_features) ;;
  let text_probs := softmax logits in
  row0 <- try IndexError (hd_error text_probs) ;;
  ret (SimilarityResponse row0 (text_list text_input_obj)).

End Handlers.

(* ================================================================== *)
(** ** The framework around the handlers (FastAPI) *)
(* ================================================================== *)

(** Only what the decorators and the parameter declarations of the three
    handlers ask of the framework is modelled: routing of POST requests,
    extraction of the declared parameters, and the translation of the
    handler's outcome into an HTTP response.  The CORS middleware only
    touches headers and is left out. *)

Inductive form_part : Type :=
| FilePart (content : UploadFile)
| FieldPart (value : string).

Inductive http_body : Type :=
| Multipart (parts : list (string * form_part))
| Raw (content : string).

(** A POST request. *)
Record http_request : Type := { req_path : string; req_body : http_body }.

Inductive http_response : Type :=
| Http200 (content : json_response)
| Http422                 (* request validation failed, no handler was called *)
| Http500 (e : exn)       (* an exception left the handler or the serialiser *)
| NoRoute.                (* no POST route is registered for the path *)

Inductive endpoint : Type := EncodeImage | EncodeText | ComputeSimilarity.

(** The [@app.post] decorators (lines 31, 46, 57). *)
Definition post_routes : list (string * endpoint) :=
  [ ("/encode_image/", EncodeImage);
    ("/encode_text/", EncodeText);
    ("/compute_similarity/", ComputeSimilarity) ].

(** Value of a form key; when a key is repeated the last part wins. *)
Fixpoint form_get (name : string) (parts : list (string * form_part)) : option form_part :=
  match parts with
  | [] => None
  | (k, v) :: rest =>
      match form_get name rest with
      | Some v' => Some v'
      | None => if String.eqb name k then Some v else None
      end
  end.

(** [file: UploadFile = File(...)]: a required file part. *)
Definition file_param (body : http_body) : option UploadFile :=
  match body with
  | Multipart parts =>
      match form_get "file" parts with
      | Some (FilePart content) => Some content
      | _ => None
      end
  | Raw _ => None
  end.

(** The value sent under the form key [text_input]. *)
Definition text_input_field (body : http_body) : option string :=
  match body with
  | Multipart parts =>
      match form_get "text_input" parts with
      | Some (FieldPart value) => Some value
      | _ => None
      end
  | Raw _ => None
  end.

(** [text_input: str = Form(...)]: a required form field; the framework
    counts an empty value as a missing one. *)
Definition form_param (body : http_body) : option string :=
  match text_input_field body with
  | Some value => if String.eqb value "" then None else Some value
  | None => None
  end.

Section App.
Context {L : Libs}.

(** [text_input: TextInput]: the request body, parsed as JSON and validated
    against the model by the framework. *)
Definition body_param (body : http_body) : option TextInput :=
  match body with
  | Raw content =>
      match json_loads content with
      | Some (JObj members) => TextInput_validate members
      | _ => None
      end
  | Multipart _ => None
  end.

(** Serialisation of the returned dict by the framework's default JSON
    response class.  It encodes with [json.dumps(..., allow_nan=False)], so
    a NaN anywhere in the dict raises ValueError instead of producing a
    body. *)
Definition render (r : response) : option json_response :=
  match r with
  | FeaturesResponse features =>
      match traverse (traverse finite) features with
      | Some f => Some (JsonFeatures f)
      | None => None
      end
  | SimilarityResponse probabilities labels =>
      match traverse finite probabilities with
      | Some p => Some (JsonSimilarity p labels)
      | None => None
      end
  end.

(** Running a handler whose parameters were accepted. *)
Definition run_endpoint (handler : M response) (g : globals) : http_response * globals :=
  match handler g with
  | (Ok r, g') =>
      match render r with
      | Some content => (Http200 content, g')
      | None => (Http500 ValueError, g')
      end
  | (Raise e, g') => (Http500 e, g')
  end.

Definition call (ep : endpoint) (body : http_body) (g : globals) : http_response * globals :=
  match ep with
  | EncodeImage =>
      match file_param body with
      | Some file => run_endpoint (encode_image file) g
      | None => (Http422, g)
      end
  | EncodeText =>
      match body_param body with
      | Some text_input => run_endpoint (encode_text text_input) g
      | None => (Http422, g)
      end
  | ComputeSimilarity =>
      match file_param body, form_param body with
      | Some file, Some text_input => run_endpoint (compute_similarity file text_input) g
      | _, _ => (Http422, g)
      end
  end.

Definition app (req : http_request) (g : globals) : http_response * globals :=
  match assoc (req_path req) post_routes with
  | Some ep => call ep (req_body req) g
  | None => (NoRoute, g)
  end.

(** The process serves requests one after the other from its globals. *)
Fixpoint serve (reqs : list http_request) (g : globals) : list http_response * globals :=
  match reqs with
  | [] => ([], g)
  | req :: rest =>
      let (resp, g') := app req g in
      let (resps, g'') := serve rest g' in
      (resp :: resps, g'')
  end.

(* ------------------------------------------------------------------ *)
(** *** Vocabulary of the specification *)

(** A row divided by its L2 norm, and a tensor so divided row by row. *)
Definition unit_row (row : list R) : list R := map (fun x => x / l2norm row) row.

Definition divided_by_norm (t : rows R) : rows R := map unit_row t.

(** The entry the similarity handler computes for an image row and a text
    row: NaN when one of the two norms is zero. *)
Definition logit (image text : list R) : fval :=
  if Req_dec_T (l2norm image) 0 then NaN
  else if Req_dec_T (l2norm text) 0 then NaN
  else Fin (100 * dot (unit_row image) (unit_row text)).


Definition is_error (r : http_response) : bool :=
  match r with
  | Http422 | Http500 _ => true
  | Http200 _ | NoRoute => false
  end.

(** The image tensor a handler obtains from an uploaded file. *)
Definition decode_image (g : globals) (file : UploadFile) : option image_tensor :=
  match Image_open file with
  | Some image => preprocess_val g image
  | None => None
  end.

(** What the image encoder returns for an uploaded image. *)
Definition image_output (g : globals) (tensor : image_tensor) : option (rows R) :=
  model_encode_image (model g) (device g) [tensor].

(** What the text encoder returns for a list of texts. *)
Definition text_output (g : globals) (texts : list string) : option (rows R) :=
  match tokenizer g texts with
  | Some text => model_encode_text (model g) (device g) text
  | None => None
  end.

(** [encoder_output g req raw]: [req] is a request to one of the two
    encoding routes and [raw] is what the encoder returns for its input. *)
Inductive encoder_output (g : globals) (req : http_request) (raw : rows R) : Prop :=
| image_encoder_output file tensor :
    req_path req = "/encode_image/" ->
    file_param (req_body req) = Some file ->
    decode_image g file = Some tensor ->
    image_output g tensor = Some raw ->
    encoder_output g req raw
| text_encoder_output text_input :
    req_path req = "/encode_text/" ->
    body_param (req_body req) = Some text_input ->
    text_output g (text_list text_input) = Some raw ->
    encoder_output g req raw.

(** The [TextInput] carried by the [text_input] form field of a request. *)
Definition form_text_input (req : http_request) : option TextInput :=
  match form_param (req_body req) with
  | Some s =>
      match json_loads s with
      | Some (JObj members) => TextInput_validate members
      | _ => None
      end
  | None => None
  end.

(** [similarity_input g req image texts ti]: [req] is a request to the
    similarity route with text input [ti], the encoder returns the single
    row [image] for its picture and the rows [texts] for its text list. *)
Inductive similarity_input (g : globals) (req : http_request)
          (image : list R) (texts : rows R) (text_input : TextInput) : Prop :=
| similarity_input_intro file tensor :
    req_path req = "/compute_similarity/" ->
    file_param (req_body req) = Some file ->
    decode_image g file = Some tensor ->
    form_text_input req = Some text_input ->
    image_output g tensor = Some [image] ->
    text_output g (text_list text_input) = Some texts ->
    similarity_input g req image texts text_input.

End App.

(* ================================================================== *)
(** ** A small instance of the libraries, for concrete runs *)
(* ================================================================== *)

Module Toy.

Definition dq : string := String (ascii_of_nat 34) EmptyString.

(** The JSON text of an object whose [text_list] is [shirt, dress]. *)
Definition two_labels : string :=
  "{" ++ dq ++ "text_list" ++ dq ++ ": [" ++ dq ++ "shirt" ++ dq ++ ", "
      ++ dq ++ "dress" ++ dq ++ "]}".

(** The JSON text of an object whose [text_list] is empty. *)
Definition no_labels : string := "{" ++ dq ++ "text_list" ++ dq ++ ": []}".

(** A JSON parser that knows three documents. *)
Definition loads (s : string) : option json :=
  if String.eqb s two_labels then
    Some (JObj [("text_list", JArr [JStr "shirt"; JStr "dress"])])
  else if String.eqb s no_labels then Some (JObj [("text_list", JArr [])])
  else if String.eqb s "{}" then Some (JObj [])
  else None.

Definition toy_model : clip_model nat string :=
  {| model_encode_image := fun _ batch => Some (map (fun _ => [3; 4]) batch);
     model_encode_text :=
       fun _ batch =>
         Some (map (fun s => if String.eqb s "shirt" then [1; 0] else [0; 2]) batch) |}.

Definition libs : Libs :=
  {| pil_image := list Byte.byte;
     image_tensor := nat;
     token_row := string;
     Image_open := fun b => match b with [] => None | _ => Some b end;
     json_loads := loads;
     str_validate := fun j => match j with JStr s => Some s | _ => None end;
     create_model_and_transforms :=
       fun _ => (toy_model, fun _ => None, fun im => Some (List.length im));
     get_tokenizer := fun _ texts => Some texts;
     cuda_is_available := false |}.

Definition g : @globals libs := @startup libs.

Definition picture : UploadFile := [Byte.x89; Byte.x50; Byte.x4e; Byte.x47].

Definition image_request : http_request :=
  {| req_path := "/encode_image/";
     req_body := Multipart [("file", FilePart picture)] |}.

(** An upload that is not an image. *)
Definition broken_image_request : http_request :=
  {| req_path := "/encode_image/";
     req_body := Multipart [("file", FilePart [])] |}.

Definition text_request (body : string) : http_request :=
  {| req_path := "/encode_text/"; req_body := Raw body |}.

Definition similarity_request (text_input : string) : http_request :=
  {| req_path := "/compute_similarity/";
     req_body := Multipart [("file", FilePart picture); ("text_input", FieldPart text_input)] |}.

End Toy.

(* ================================================================== *)
(** ** A second instance, whose encoders can return a zero row *)
(* ================================================================== *)

Module Lab.

(** The JSON text of an object whose [text_list] holds the one item [s]. *)
Definition one_label (s : string) : string :=
  "{" ++ Toy.dq ++ "text_list" ++ Toy.dq ++ ": [" ++ Toy.dq ++ s ++ Toy.dq ++ "]}".

(** A JSON parser that knows the one-item documents for [shirt] and for
    [blank], and the two-item document of the first instance. *)
Definition loads (s : string) : option json :=
  if String.eqb s (one_label "shirt") then
    Some (JObj [("text_list", JArr [JStr "shirt"])])
  else if String.eqb s (one_label "blank") then
    Some (JObj [("text_list", JArr [JStr "blank"])])
  else if String.eqb s Toy.two_labels then
    Some (JObj [("text_list", JArr [JStr "shirt"; JStr "dress"])])
  else None.

(** A one-byte picture is encoded as the zero row, and so is the text
    [blank]. *)
Definition lab_model : clip_model nat string :=
  {| model_encode_image :=
       fun _ batch => Some (map (fun n => if Nat.eqb n 1 then [0; 0] else [3; 4]) batch);
     model_encode_text :=
       fun _ batch =>
         Some (map (fun s => if String.eqb s "blank" then [0; 0]
                             else if String.eqb s "shirt" then [1; 0] else [0; 2])
                   batch) |}.

Definition libs : Libs :=
  {| pil_image := list Byte.byte;
     image_tensor := nat;
     token_row := string;
     Image_open := fun b => match b with [] => None | _ => Some b end;
     json_loads := loads;
     str_validate := fun j => match j with JStr s => Some s | _ => None end;
     create_model_and_transforms :=
       fun _ => (lab_model, fun _ => None, fun im => Some (List.length im));
     get_tokenizer := fun _ texts => Some texts;
     cuda_is_available := true |}.

Definition g : @globals libs := @startup libs.

(** A picture the image encoder maps to the zero row. *)
Definition dark_picture : UploadFile := [Byte.x00].

Definition image_request (file : UploadFile) : http_request :=
  {| req_path := "/encode_image/";
     req_body := Multipart [("file", FilePart file)] |}.

Definition text_request (body : string) : http_request :=
  {| req_path := "/encode_text/"; req_body := Raw body |}.

Definition similarity_request (file : UploadFile) (text_input : string) : http_request :=
  {| req_path := "/compute_similarity/";
     req_body := Multipart [("file", FilePart file); ("text_input", FieldPart text_input)] |}.

End Lab.

(* ================================================================== *)
(** ** Arithmetic of norms and softmax *)
(* ================================================================== *)

Section Arithmetic.

Lemma sum_cons (x : R) (l : list R) : sum (x :: l) = x + sum l.
Proof. reflexivity. Qed.

Lemma sum_map_div (f : R -> R) (c : R) (l : list R) :
  sum (map (fun x => f x / c) l) = sum (map f l) / c.
Proof.
  induction l as [|x l IH]; simpl.
  - unfold sum; simpl. unfold Rdiv. lra.
  - rewrite !sum_cons, IH. unfold Rdiv. lra.
Qed.

Lemma sum_squares_nonneg (row : list R) : 0 <= sum (map (fun x => x * x) row).
Proof.
  induction row as [|x row IH]; simpl.
  - unfold sum; simpl. lra.
  - rewrite sum_cons. nra.
Qed.

Lemma l2norm_square (row : list R) :
  l2norm row * l2norm row = sum (map (fun x => x * x) row).
Proof. apply sqrt_sqrt, sum_squares_nonneg. Qed.



Lemma l2norm_unit_row (row : list R) :
  l2norm row <> 0 -> l2norm (unit_row row) = 1.
Proof.
  intros Hn. unfold unit_row, l2norm at 1.
  rewrite map_map.
  assert (E : sum (map (fun x => x / l2norm row * (x / l2norm row)) row) = 1).
  { transitivity (sum (map (fun x => x * x / (l2norm row * l2norm row)) row)).
    - f_equal. apply map_ext. intros x. field. exact Hn.
    - rewrite (sum_map_div (fun x => x * x)), <- l2norm_square.
      field. exact Hn. }
  rewrite E. apply sqrt_1.
Qed.




Lemma softmaxR_length (l : list R) : List.length (softmaxR l) = List.length l.
Proof. unfold softmaxR. apply length_map. Qed.

Lemma dot_scale (c : R) (u v : list R) :
  dot (map (fun x => c * x) u) v = c * dot u v.
Proof.
  unfold dot. revert v.
  induction u as [|x u IH]; intros [|y v]; cbn [map combine fst snd];
    try (unfold sum; simpl; lra).
  rewrite !sum_cons, IH. lra.
Qed.



End Arithmetic.

(* ================================================================== *)
(** ** Tensors with non-finite entries *)
(* ================================================================== *)

Section Tensors.

Lemma traverse_map {A B C : Type} (f : B -> option C) (h : A -> B) (k : A -> C)
      (l : list A) :
  (forall x, In x l -> f (h x) = Some (k x)) ->
  traverse f (map h l) = Some (map k l).
Proof.
  induction l as [|x l IH]; intros H; simpl.
  - reflexivity.
  - rewrite (H x (or_introl eq_refl)), IH; [reflexivity|].
    intros y Hy. apply H. right. exact Hy.
Qed.

Lemma traverse_inv {A B : Type} (f : A -> option B) (l : list A) (l' : list B) :
  traverse f l = Some l' -> Forall2 (fun x y => f x = Some y) l l'.
Proof.
  revert l'. induction l as [|x l IH]; simpl; intros l' H.
  - injection H as <-. constructor.
  - destruct (f x) as [y|] eqn:Hx; [|discriminate].
    destruct (traverse f l) as [ys|]; [|discriminate].
    injection H as <-. constructor; [exact Hx | apply IH; reflexivity].
Qed.

Lemma traverse_finite_Fin (l : list R) : traverse finite (map Fin l) = Some l.
Proof.
  rewrite (traverse_map finite Fin (fun x => x)).
  - rewrite map_id. reflexivity.
  - reflexivity.
Qed.

Lemma traverse_finite_inv (l : list fval) (xs : list R) :
  traverse finite l = Some xs -> l = map Fin xs.
Proof.
  intros H. apply traverse_inv in H.
  induction H as [|x y l xs Hxy _ IH]; simpl.
  - reflexivity.
  - destruct x; simpl in Hxy; [|discriminate].
    injection Hxy as ->. f_equal. exact IH.
Qed.

Lemma traverse_finite_NaN (l : list fval) : In NaN l -> traverse finite l = None.
Proof.
  induction l as [|x l IH]; simpl; intros H; [contradiction|].
  destruct H as [->|H]; simpl; [reflexivity|].
  rewrite (IH H). destruct (finite x); reflexivity.
Qed.

(** Division of a row by a non-zero norm is finite. *)
Lemma normalize_row_finite (row : list R) :
  l2norm row <> 0 -> normalize_row row = map Fin (unit_row row).
Proof.
  intros Hn. unfold normalize_row, unit_row. rewrite map_map.
  apply map_ext. intros x. unfold fdiv.
  destruct (Req_dec_T (l2norm row) 0); [contradiction | reflexivity].
Qed.

(** Division of a row by a zero norm gives NaN in every position. *)
Lemma normalize_row_NaN (row : list R) :
  l2norm row = 0 -> normalize_row row = map (fun _ => NaN) row.
Proof.
  intros Hn. unfold normalize_row. apply map_ext. intros x. unfold fdiv.
  destruct (Req_dec_T (l2norm row) 0); [reflexivity | contradiction].
Qed.

Lemma normalize_row_length (row : list R) :
  List.length (normalize_row row) = List.length row.
Proof. apply length_map. Qed.

(** A normalised row passes serialisation exactly when it is empty or its
    norm is not zero. *)
Lemma normalize_row_render (row : list R) (out : list R) :
  row <> [] ->
  traverse finite (normalize_row row) = Some out ->
  l2norm row <> 0 /\ out = unit_row row.
Proof.
  intros Hne H.
  destruct (Req_dec_T (l2norm row) 0) as [Hz|Hnz].
  - rewrite (normalize_row_NaN row Hz) in H.
    rewrite traverse_finite_NaN in H; [discriminate|].
    destruct row as [|x row]; [congruence|]. left. reflexivity.
  - split; [exact Hnz|].
    rewrite (normalize_row_finite row Hnz), traverse_finite_Fin in H.
    congruence.
Qed.

Lemma normalize_render (t : rows R) (out : rows R) :
  Forall (fun row => row <> []) t ->
  traverse (traverse finite) (normalize t) = Some out ->
  Forall (fun row => l2norm row <> 0) t /\ out = divided_by_norm t.
Proof.
  revert out. induction t as [|row t IH]; simpl; intros out Hne H.
  - injection H as <-. split; constructor.
  - inversion Hne as [|? ? Hrow Ht]; subst.
    destruct (traverse finite (normalize_row row)) as [r|] eqn:Hr; [|discriminate].
    fold (normalize t) in H.
    destruct (traverse (traverse finite) (normalize t)) as [rs|] eqn:Hrs; [|discriminate].
    injection H as <-.
    destruct (normalize_row_render row r Hrow Hr) as [Hn ->].
    destruct (IH rs Ht eq_refl) as [Hns ->].
    split; [constructor; assumption | reflexivity].
Qed.

Lemma normalize_finite (t : rows R) :
  Forall (fun row => l2norm row <> 0) t ->
  traverse (traverse finite) (normalize t) = Some (divided_by_norm t).
Proof.
  induction 1 as [|row t Hrow _ IH]; simpl.
  - reflexivity.
  - fold (normalize t). rewrite IH.
    rewrite (normalize_row_finite row Hrow), traverse_finite_Fin. reflexivity.
Qed.


End Tensors.

Section Products.

Lemma fdot_Fin (u v : list R) :
  List.length u = List.length v ->
  fdot (map Fin u) (map Fin v) = Some (Fin (dot u v)).
Proof.
  revert v. induction u as [|x u IH]; intros [|y v] H; simpl in H; try discriminate.
  - reflexivity.
  - simpl. rewrite IH by lia. reflexivity.
Qed.

Lemma fdot_NaN_l {A : Type} (u : list A) (v : list fval) (c : fval) :
  u <> [] -> List.length u = List.length v ->
  fdot (map (fmul c) (map (fun _ => NaN) u)) v = Some NaN.
Proof.
  revert v. induction u as [|x u IH]; intros [|y v] Hne H; simpl in H;
    try congruence; try discriminate.
  simpl. destruct u as [|x' u].
  - destruct v; [|discriminate]. simpl. destruct c; reflexivity.
  - rewrite IH; [|discriminate|lia]. destruct c; reflexivity.
Qed.

Lemma fdot_NaN_r {A : Type} (u : list fval) (v : list A) :
  v <> [] -> List.length u = List.length v ->
  fdot u (map (fun _ => NaN) v) = Some NaN.
Proof.
  revert u. induction v as [|y v IH]; intros [|x u] Hne H; simpl in H;
    try congruence; try discriminate.
  simpl. destruct v as [|y' v].
  - destruct u; [|discriminate]. simpl. destruct x; reflexivity.
  - rewrite IH; [|discriminate|lia]. destruct x; reflexivity.
Qed.

Lemma scale_Fin (c : R) (l : list R) :
  map (fmul (Fin c)) (map Fin l) = map Fin (map (fun x => c * x) l).
Proof. rewrite !map_map. reflexivity. Qed.

(** Line 83, one entry: the scaled, normalised image row against one
    normalised text row. *)
Lemma fdot_normalized (image text : list R) :
  image <> [] -> List.length image = List.length text ->
  fdot (map (fmul (Fin 100)) (normalize_row image)) (normalize_row text)
  = Some (logit image text).
Proof.
  intros Hne Hlen. unfold logit.
  destruct (Req_dec_T (l2norm image) 0) as [Hi|Hi].
  - rewrite (normalize_row_NaN image Hi).
    apply fdot_NaN_l; [exact Hne|].
    rewrite normalize_row_length. exact Hlen.
  - destruct (Req_dec_T (l2norm text) 0) as [Ht|Ht].
    + rewrite (normalize_row_NaN text Ht).
      apply fdot_NaN_r.
      * intros ->. destruct image; [congruence | discriminate].
      * rewrite length_map, normalize_row_length. exact Hlen.
    + rewrite (normalize_row_finite image Hi), (normalize_row_finite text Ht).
      rewrite scale_Fin, fdot_Fin.
      * rewrite dot_scale. reflexivity.
      * unfold unit_row. rewrite !length_map. exact Hlen.
Qed.

(** Lines 79-83 for an image tensor of one row. *)
Lemma matmul_normalized (image : list R) (texts : rows R) :
  image <> [] ->
  Forall (fun t => List.length t = List.length image) texts ->
  matmul_T (scale 100 (normalize [image])) (normalize texts)
  = Some [map (logit image) texts].
Proof.
  intros Hne Hw. unfold matmul_T, scale, normalize. cbn [map traverse].
  rewrite (traverse_map _ normalize_row (logit image)); [reflexivity|].
  intros t Ht. apply fdot_normalized; [exact Hne|].
  rewrite Forall_forall in Hw. symmetry. apply Hw. exact Ht.
Qed.

Lemma softmax_row_render (l : list fval) (p : list R) :
  traverse finite (softmax_row l) = Some p ->
  exists xs, l = map Fin xs /\ p = softmaxR xs.
Proof.
  unfold softmax_row. intros H.
  destruct (traverse finite l) as [xs|] eqn:Hl.
  - exists xs. split; [apply traverse_finite_inv; exact Hl|].
    rewrite traverse_finite_Fin in H. congruence.
  - destruct l as [|x l]; [discriminate|].
    rewrite traverse_finite_NaN in H; [discriminate|]. left. reflexivity.
Qed.

Lemma softmax_row_Fin (xs : list R) :
  softmax_row (map Fin xs) = map Fin (softmaxR xs).
Proof. unfold softmax_row. rewrite traverse_finite_Fin. reflexivity. Qed.

(** Finite logits: either there is no text at all, or no norm is zero. *)
Lemma logits_finite (image : list R) (texts : rows R) (xs : list R) :
  map (logit image) texts = map Fin xs ->
  xs = map (fun t => 100 * dot (unit_row image) (unit_row t)) texts
  /\ (texts = [] \/ (l2norm image <> 0 /\ Forall (fun t => l2norm t <> 0) texts)).
Proof.
  revert xs. induction texts as [|t texts IH]; intros [|x xs] H; simpl in H;
    try discriminate.
  - split; [reflexivity | left; reflexivity].
  - injection H as Ht Hrest.
    destruct (IH xs Hrest) as [-> Hcases].
    unfold logit in Ht.
    destruct (Req_dec_T (l2norm image) 0) as [|Hi]; [discriminate|].
    destruct (Req_dec_T (l2norm t) 0) as [|Hn]; [discriminate|].
    injection Ht as <-.
    split; [reflexivity | right]. split; [exact Hi|].
    constructor; [exact Hn|].
    destruct Hcases as [->|[_ Hall]]; [constructor | exact Hall].
Qed.

Lemma logits_Fin (image : list R) (texts : rows R) :
  l2norm image <> 0 -> Forall (fun t => l2norm t <> 0) texts ->
  map (logit image) texts
  = map Fin (map (fun t => 100 * dot (unit_row image) (unit_row t)) texts).
Proof.
  intros Hi Hall. rewrite map_map. apply map_ext_in. intros t Ht.
  rewrite Forall_forall in Hall. unfold logit.
  destruct (Req_dec_T (l2norm image) 0); [contradiction|].
  destruct (Req_dec_T (l2norm t) 0) as [Hz|]; [|reflexivity].
  exfalso. exact (Hall t Ht Hz).
Qed.

End Products.

(* ================================================================== *)
(** ** The handlers, step by step *)
(* ================================================================== *)

Section Runs.
Context {L : Libs}.

Lemma readonly_ret {A : Type} (a : A) : readonly (ret a).
Proof. intros g. reflexivity. Qed.

Lemma readonly_raise {A : Type} (e : exn) : readonly (@raise _ A e).
Proof. intros g. reflexivity. Qed.

Lemma readonly_gets {A : Type} (f : globals -> A) : readonly (gets f).
Proof. intros g. reflexivity. Qed.

Lemma readonly_try {A : Type} (e : exn) (o : option A) : readonly (try e o).
Proof. destruct o; [apply readonly_ret | apply readonly_raise]. Qed.

Lemma readonly_bind {A B : Type} (m : M A) (k : A -> M B) :
  readonly m -> (forall a, readonly (k a)) -> readonly (bind m k).
Proof.
  intros Hm Hk g. unfold bind.
  specialize (Hm g). destruct (m g) as [[a|e] g']; simpl in Hm; subst g'.
  - apply Hk.
  - reflexivity.
Qed.

Lemma readonly_TextInput_new (d : json) : readonly (TextInput_new d).
Proof.
  destruct d; simpl; try apply readonly_raise. apply readonly_try.
Qed.

Create HintDb readonly.
#[local] Hint Resolve readonly_ret readonly_raise readonly_gets readonly_try
  readonly_TextInput_new : readonly.

Ltac readonly_steps :=
  repeat (first [ apply readonly_bind; [solve [auto with readonly] | intros ?]
                | solve [auto with readonly] ]).

Lemma readonly_encode_image (file : UploadFile) : readonly (encode_image file).
Proof. unfold encode_image. readonly_steps. Qed.

Lemma readonly_encode_text (text_input : TextInput) : readonly (encode_text text_input).
Proof. unfold encode_text. readonly_steps. Qed.

Lemma readonly_compute_similarity (file : UploadFile) (text_input : string) :
  readonly (compute_similarity file text_input).
Proof. unfold compute_similarity. readonly_steps. Qed.

Lemma run_endpoint_state (handler : M response) (g : globals) :
  readonly handler -> snd (run_endpoint handler g) = g.
Proof.
  intros H. unfold run_endpoint. specialize (H g).
  destruct (handler g) as [[r|e] g']; simpl in H; subst g'.
  - destruct (render r); reflexivity.
  - reflexivity.
Qed.

Lemma call_state (ep : endpoint) (body : http_body) (g : globals) :
  snd (call ep body g) = g.
Proof.
  destruct ep; simpl.
  - destruct (file_param body); [|reflexivity].
    apply run_endpoint_state, readonly_encode_image.
  - destruct (body_param body); [|reflexivity].
    apply run_endpoint_state, readonly_encode_text.
  - destruct (file_param body); [|reflexivity].
    destruct (form_param body); [|reflexivity].
    apply run_endpoint_state, readonly_compute_similarity.
Qed.

Lemma app_state (req : http_request) (g : globals) : snd (app req g) = g.
Proof.
  unfold app. destruct (assoc (req_path req) post_routes); [|reflexivity].
  apply call_state.
Qed.

(** What each handler returns, spelled out. *)
Lemma encode_image_run (file : UploadFile) (g : globals) :
  encode_image file g =
  match Image_open file with
  | None => (Raise UnidentifiedImageError, g)
  | Some image =>
      match preprocess_val g image with
      | None => (Raise OSError, g)
      | Some tensor =>
          match image_output g tensor with
          | None => (Raise ModelError, g)
          | Some raw => (Ok (FeaturesResponse (normalize raw)), g)
          end
      end
  end.
Proof.
  unfold encode_image, bind, try, gets, ret, raise, image_output.
  destruct (Image_open file) as [image|]; [|reflexivity].
  destruct (preprocess_val g image) as [tensor|]; [|reflexivity].
  destruct (model_encode_image _ _ _); reflexivity.
Qed.

Lemma encode_text_run (text_input : TextInput) (g : globals) :
  encode_text text_input g =
  match tokenizer g (text_list text_input) with
  | None => (Raise TokenizerError, g)
  | Some text =>
      match model_encode_text (model g) (device g) text with
      | None => (Raise ModelError, g)
      | Some raw => (Ok (FeaturesResponse (normalize raw)), g)
      end
  end.
Proof.
  unfold encode_text, bind, try, gets, ret, raise.
  destruct (tokenizer g (text_list text_input)) as [text|]; [|reflexivity].
  destruct (model_encode_text _ _ _); reflexivity.
Qed.

Lemma TextInput_new_run (d : json) (g : globals) :
  TextInput_new d g =
  (match d with
   | JObj members =>
       match TextInput_validate members with
       | Some text_input => Ok text_input
       | None => Raise ValidationError
       end
   | _ => Raise TypeError
   end, g).
Proof.
  destruct d; try reflexivity. simpl.
  destruct (TextInput_validate members); reflexivity.
Qed.

Lemma compute_similarity_run (file : UploadFile) (text_input : string) (g : globals) :
  compute_similarity file text_input g =
  match json_loads text_input with
  | None => (Raise JSONDecodeError, g)
  | Some d =>
    match fst (TextInput_new d g) with
    | Raise e => (Raise e, g)
    | Ok obj =>
      match Image_open file with
      | None => (Raise UnidentifiedImageError, g)
      | Some image =>
        match preprocess_val g image with
        | None => (Raise OSError, g)
        | Some tensor =>
          match tokenizer g (text_list obj) with
          | None => (Raise TokenizerError, g)
          | Some text =>
            match image_output g tensor with
            | None => (Raise ModelError, g)
            | Some image_features =>
              match model_encode_text (model g) (device g) text with
              | None => (Raise ModelError, g)
              | Some text_features =>
                match matmul_T (scale 100 (normalize image_features))
                               (normalize text_features) with
                | None => (Raise RuntimeError, g)
                | Some logits =>
                  match hd_error (softmax logits) with
                  | None => (Raise IndexError, g)
                  | Some row0 => (Ok (SimilarityResponse row0 (text_list obj)), g)
                  end
                end
              end
            end
          end
        end
      end
    end
  end.
Proof.
  unfold compute_similarity, bind at 1.
  destruct (json_loads text_input) as [d|]; [|reflexivity].
  cbn [try ret]. unfold bind at 1. rewrite TextInput_new_run. cbn [fst].
  destruct d; try reflexivity.
  destruct (TextInput_validate members) as [obj|]; [|reflexivity].
  unfold bind, try, gets, ret, raise, image_output.
  destruct (Image_open file) as [image|]; [|reflexivity].
  destruct (preprocess_val g image) as [tensor|]; [|reflexivity].
  destruct (tokenizer g (text_list obj)) as [text|]; [|reflexivity].
  destruct (model_encode_image _ _ _) as [image_features|]; [|reflexivity].
  destruct (model_encode_text _ _ _) as [text_features|]; [|reflexivity].
  destruct (matmul_T _ _) as [logits|]; [|reflexivity].
  destruct (hd_error (softmax logits)); reflexivity.
Qed.

(** When every library call returns, so do the handlers. *)
Lemma encode_image_returns (file : UploadFile) (g : globals)
      (tensor : image_tensor) (raw : rows R) :
  decode_image g file = Some tensor ->
  image_output g tensor = Some raw ->
  encode_image file g = (Ok (FeaturesResponse (normalize raw)), g).
Proof.
  unfold decode_image. intros Hd Ho. rewrite encode_image_run.
  destruct (Image_open file) as [image|]; [|discriminate].
  rewrite Hd, Ho. reflexivity.
Qed.

Lemma encode_text_returns (text_input : TextInput) (g : globals) (raw : rows R) :
  text_output g (text_list text_input) = Some raw ->
  encode_text text_input g = (Ok (FeaturesResponse (normalize raw)), g).
Proof.
  unfold text_output. intros Ho. rewrite encode_text_run.
  destruct (tokenizer g (text_list text_input)) as [text|]; [|discriminate].
  rewrite Ho. reflexivity.
Qed.

Lemma compute_similarity_returns (file : UploadFile) (s : string) (g : globals)
      (members : list (string * json)) (text_input : TextInput)
      (tensor : image_tensor) (image_features text_features : rows R) :
  json_loads s = Some (JObj members) ->
  TextInput_validate members = Some text_input ->
  decode_image g file = Some tensor ->
  image_output g tensor = Some image_features ->
  text_output g (text_list text_input) = Some text_features ->
  compute_similarity file s g =
  match matmul_T (scale 100 (normalize image_features)) (normalize text_features) with
  | None => (Raise RuntimeError, g)
  | Some logits =>
      match hd_error (softmax logits) with
      | None => (Raise IndexError, g)
      | Some row0 => (Ok (SimilarityResponse row0 (text_list text_input)), g)
      end
  end.
Proof.
  unfold decode_image, text_output. intros Hj Hv Hd Hi Ht.
  rewrite compute_similarity_run, Hj, TextInput_new_run, Hv. cbn [fst].
  destruct (Image_open file) as [image|]; [|discriminate].
  rewrite Hd.
  destruct (tokenizer g (text_list text_input)) as [text|]; [|discriminate].
  rewrite Hi, Ht. reflexivity.
Qed.

(** Conversely, a handler that returns went through every call. *)
Lemma encode_image_ok (file : UploadFile) (g : globals) (r : response) :
  fst (encode_image file g) = Ok r ->
  exists tensor raw,
    decode_image g file = Some tensor
    /\ image_output g tensor = Some raw
    /\ r = FeaturesResponse (normalize raw).
Proof.
  rewrite encode_image_run. unfold decode_image.
  destruct (Image_open file) as [image|]; [|discriminate].
  destruct (preprocess_val g image) as [tensor|]; [|discriminate].
  destruct (image_output g tensor) as [raw|] eqn:Ho; [|discriminate].
  simpl. intros H. injection H as <-. exists tensor, raw. auto.
Qed.

Lemma encode_text_ok (text_input : TextInput) (g : globals) (r : response) :
  fst (encode_text text_input g) = Ok r ->
  exists raw,
    text_output g (text_list text_input) = Some raw
    /\ r = FeaturesResponse (normalize raw).
Proof.
  rewrite encode_text_run. unfold text_output.
  destruct (tokenizer g (text_list text_input)) as [text|]; [|discriminate].
  destruct (model_encode_text _ _ _) as [raw|]; [|discriminate].
  simpl. intros H. injection H as <-. exists raw. auto.
Qed.

Lemma compute_similarity_ok (file : UploadFile) (s : string) (g : globals)
      (r : response) :
  fst (compute_similarity file s g) = Ok r ->
  exists members text_input tensor image_features text_features logits row0,
    json_loads s = Some (JObj members)
    /\ TextInput_validate members = Some text_input
    /\ decode_image g file = Some tensor
    /\ image_output g tensor = Some image_features
    /\ text_output g (text_list text_input) = Some text_features
    /\ matmul_T (scale 100 (normalize image_features)) (normalize text_features)
       = Some logits
    /\ hd_error (softmax logits) = Some row0
    /\ r = SimilarityResponse row0 (text_list text_input).
Proof.
  intros H. rewrite compute_similarity_run in H.
  destruct (json_loads s) as [d|] eqn:Hj; [|discriminate].
  rewrite TextInput_new_run in H. cbn [fst] in H.
  destruct d; try discriminate.
  destruct (TextInput_validate members) as [obj|] eqn:Hv; [|discriminate].
  destruct (Image_open file) as [image|] eqn:Hi; [|discriminate].
  destruct (preprocess_val g image) as [tensor|] eqn:Hp; [|discriminate].
  destruct (tokenizer g (text_list obj)) as [text|] eqn:Hk; [|discriminate].
  destruct (image_output g tensor) as [image_features|] eqn:Ho; [|discriminate].
  destruct (model_encode_text _ _ _) as [text_features|] eqn:Ht; [|discriminate].
  destruct (matmul_T _ _) as [logits|] eqn:Hm; [|discriminate].
  destruct (hd_error (softmax logits)) as [row0|] eqn:Hh; [|discriminate].
  simpl in H. injection H as <-.
  exists members, obj, tensor, image_features, text_features, logits, row0.
  unfold decode_image, text_output. rewrite Hi, Hk.
  repeat split; auto.
Qed.

(** The route table, read backwards. *)
Lemma route_inv (p : string) (ep : endpoint) :
  assoc p post_routes = Some ep ->
  match ep with
  | EncodeImage => p = "/encode_image/"
  | EncodeText => p = "/encode_text/"
  | ComputeSimilarity => p = "/compute_similarity/"
  end.
Proof.
  unfold post_routes. cbn [assoc].
  destruct (String.eqb_spec p "/encode_image/") as [->|_].
  { intros H. injection H as <-. reflexivity. }
  destruct (String.eqb_spec p "/encode_text/") as [->|_].
  { intros H. injection H as <-. reflexivity. }
  destruct (String.eqb_spec p "/compute_similarity/") as [->|_].
  { intros H. injection H as <-. reflexivity. }
  discriminate.
Qed.

Lemma route_encode_image : assoc "/encode_image/" post_routes = Some EncodeImage.
Proof. reflexivity. Qed.

Lemma route_encode_text : assoc "/encode_text/" post_routes = Some EncodeText.
Proof. reflexivity. Qed.

Lemma route_compute_similarity :
  assoc "/compute_similarity/" post_routes = Some ComputeSimilarity.
Proof. reflexivity. Qed.


Lemma run_endpoint_raise (handler : M response) (g : globals) (e : exn) :
  fst (handler g) = Raise e -> fst (run_endpoint handler g) = Http500 e.
Proof.
  unfold run_endpoint. destruct (handler g) as [[r|e'] g']; simpl; intros H.
  - discriminate.
  - congruence.
Qed.

Lemma run_endpoint_ok (handler : M response) (g : globals) (r : response) :
  fst (handler g) = Ok r ->
  fst (run_endpoint handler g)
  = match render r with
    | Some content => Http200 content
    | None => Http500 ValueError
    end.
Proof.
  unfold run_endpoint. destruct (handler g) as [[r'|e] g']; simpl; intros H.
  - injection H as ->. destruct (render r); reflexivity.
  - discriminate.
Qed.

Lemma run_endpoint_200 (handler : M response) (g : globals) (content : json_response) :
  fst (run_endpoint handler g) = Http200 content ->
  exists r, fst (handler g) = Ok r /\ render r = Some content.
Proof.
  unfold run_endpoint. destruct (handler g) as [[r|e] g']; simpl; intros H.
  - exists r. split; [reflexivity|].
    destruct (render r); [|discriminate]. cbn in H. congruence.
  - discriminate.
Qed.

End Runs.

(* ================================================================== *)
(** ** From a response back to the request, and forth *)
(* ================================================================== *)

Section Responses.
Context {L : Libs}.

Lemma app_encode_image (g : globals) (req : http_request) (file : UploadFile) :
  req_path req = "/encode_image/" ->
  file_param (req_body req) = Some file ->
  fst (app req g) = fst (run_endpoint (encode_image file) g).
Proof.
  intros Hr Hf. unfold app. rewrite Hr, route_encode_image. cbn [call].
  rewrite Hf. reflexivity.
Qed.

Lemma app_encode_text (g : globals) (req : http_request) (text_input : TextInput) :
  req_path req = "/encode_text/" ->
  body_param (req_body req) = Some text_input ->
  fst (app req g) = fst (run_endpoint (encode_text text_input) g).
Proof.
  intros Hr Hb. unfold app. rewrite Hr, route_encode_text. cbn [call].
  rewrite Hb. reflexivity.
Qed.

Lemma app_compute_similarity (g : globals) (req : http_request)
      (file : UploadFile) (s : string) :
  req_path req = "/compute_similarity/" ->
  file_param (req_body req) = Some file ->
  form_param (req_body req) = Some s ->
  fst (app req g) = fst (run_endpoint (compute_similarity file s) g).
Proof.
  intros Hr Hf Hs. unfold app. rewrite Hr, route_compute_similarity. cbn [call].
  rewrite Hf, Hs. reflexivity.
Qed.

(** A 200 response is the serialised return value of the handler of the
    request's route. *)
Lemma app_200_inv (g : globals) (req : http_request) (content : json_response) :
  fst (app req g) = Http200 content ->
  (req_path req = "/encode_image/"
   /\ exists file r,
       file_param (req_body req) = Some file
       /\ fst (encode_image file g) = Ok r /\ render r = Some content)
  \/ (req_path req = "/encode_text/"
      /\ exists text_input r,
          body_param (req_body req) = Some text_input
          /\ fst (encode_text text_input g) = Ok r /\ render r = Some content)
  \/ (req_path req = "/compute_similarity/"
      /\ exists file s r,
          file_param (req_body req) = Some file
          /\ form_param (req_body req) = Some s
          /\ fst (compute_similarity file s g) = Ok r /\ render r = Some content).
Proof.
  unfold app. intros H.
  destruct (assoc (req_path req) post_routes) as [ep|] eqn:Hr; [|discriminate].
  apply route_inv in Hr. destruct ep; cbn [call] in H.
  - destruct (file_param (req_body req)) as [file|]; [|discriminate].
    apply run_endpoint_200 in H. destruct H as [r [Hh Hs]].
    left. split; [exact Hr|]. exists file, r. auto.
  - destruct (body_param (req_body req)) as [ti|]; [|discriminate].
    apply run_endpoint_200 in H. destruct H as [r [Hh Hs]].
    right. left. split; [exact Hr|]. exists ti, r. auto.
  - destruct (file_param (req_body req)) as [file|]; [|discriminate].
    destruct (form_param (req_body req)) as [s|]; [|discriminate].
    apply run_endpoint_200 in H. destruct H as [r [Hh Hs]].
    right. right. split; [exact Hr|]. exists file, s, r. auto.
Qed.

Lemma render_features_inv (r : response) (F : rows R) :
  render r = Some (JsonFeatures F) ->
  exists features, r = FeaturesResponse features
                   /\ traverse (traverse finite) features = Some F.
Proof.
  destruct r as [features | p labels]; cbn [render].
  - destruct (traverse (traverse finite) features) as [f|] eqn:E; [|discriminate].
    intros H. injection H as <-. eauto.
  - destruct (traverse finite p); discriminate.
Qed.

Lemma render_similarity_inv (r : response) (p : list R) (labels : list string) :
  render r = Some (JsonSimilarity p labels) ->
  exists probabilities, r = SimilarityResponse probabilities labels
                        /\ traverse finite probabilities = Some p.
Proof.
  destruct r as [features | q l]; cbn [render].
  - destruct (traverse (traverse finite) features); discriminate.
  - destruct (traverse finite q) as [q'|] eqn:E; [|discriminate].
    intros H. injection H as <- <-. eauto.
Qed.

Lemma rows_nonempty (D : nat) (t : rows R) :
  (0 < D)%nat -> Forall (fun row => List.length row = D) t ->
  Forall (fun row => row <> []) t.
Proof.
  intros HD H. eapply Forall_impl; [|exact H].
  intros row Hrow ->. simpl in Hrow. lia.
Qed.

Lemma text_output_shape (g : globals) (D : nat) (texts : list string) (raw : rows R) :
  model_laws g D -> text_output g texts = Some raw ->
  List.length raw = List.length texts
  /\ Forall (fun row => List.length row = D) raw.
Proof.
  intros Hl. unfold text_output.
  destruct (tokenizer g texts) as [text|] eqn:Hk; [|discriminate].
  intros He. split.
  - rewrite (encode_text_length g D Hl _ _ _ He). apply (tokenizer_length g D Hl _ _ Hk).
  - apply (encode_text_width g D Hl _ _ _ He).
Qed.

Lemma image_output_shape (g : globals) (D : nat) (tensor : image_tensor) (raw : rows R) :
  model_laws g D -> image_output g tensor = Some raw ->
  exists image, raw = [image] /\ List.length image = D.
Proof.
  intros Hl. unfold image_output. intros He.
  pose proof (encode_image_length g D Hl _ _ _ He) as Hlen.
  pose proof (encode_image_width g D Hl _ _ _ He) as Hw.
  destruct raw as [|image [|? ?]]; simpl in Hlen; try discriminate.
  exists image. split; [reflexivity|]. inversion Hw; assumption.
Qed.

Lemma encoder_output_path (g : globals) (req : http_request) (raw : rows R) :
  encoder_output g req raw ->
  req_path req = "/encode_image/" \/ req_path req = "/encode_text/".
Proof. intros H. destruct H; [left | right]; assumption. Qed.

Lemma encoder_output_width (g : globals) (D : nat) (req : http_request) (raw : rows R) :
  model_laws g D -> encoder_output g req raw ->
  Forall (fun row => row <> []) raw.
Proof.
  intros Hl H. apply (rows_nonempty D); [apply (embed_dim_pos g D Hl)|].
  destruct H as [file tensor _ _ _ Ho | ti _ _ Ho].
  - apply (encode_image_width g D Hl _ _ _ Ho).
  - apply (text_output_shape g D _ _ Hl Ho).
Qed.

(** The encoder output of a request is unique. *)
Lemma encoder_output_unique (g : globals) (req : http_request) (raw raw' : rows R) :
  encoder_output g req raw -> encoder_output g req raw' -> raw = raw'.
Proof.
  intros H H'.
  destruct H as [file tensor Hr Hf Hd Ho | ti Hr Hb Ho];
    destruct H' as [file' tensor' Hr' Hf' Hd' Ho' | ti' Hr' Hb' Ho'];
    try (rewrite Hr in Hr'; discriminate).
  - rewrite Hf in Hf'. injection Hf' as <-.
    rewrite Hd in Hd'. injection Hd' as <-. congruence.
  - rewrite Hb in Hb'. injection Hb' as <-. congruence.
Qed.

(** A 200 response carrying features comes from one of the two encoding
    routes, and its content is the serialised normalised encoder output. *)
Lemma app_features_inv (g : globals) (req : http_request) (F : rows R) :
  fst (app req g) = Http200 (JsonFeatures F) ->
  exists raw, encoder_output g req raw
              /\ traverse (traverse finite) (normalize raw) = Some F.
Proof.
  intros H. apply app_200_inv in H.
  destruct H as [[Hr [file [r [Hf [Hh Hs]]]]]
                | [[Hr [ti [r [Hb [Hh Hs]]]]]
                  | [Hr [file [s [r [Hf [Hp [Hh Hs]]]]]]]]].
  - destruct (encode_image_ok file g r Hh) as [tensor [raw [Hd [Ho ->]]]].
    destruct (render_features_inv _ _ Hs) as [features [E Ht]].
    injection E as <-. exists raw. split; [|exact Ht].
    exact (image_encoder_output g req raw file tensor Hr Hf Hd Ho).
  - destruct (encode_text_ok ti g r Hh) as [raw [Ho ->]].
    destruct (render_features_inv _ _ Hs) as [features [E Ht]].
    injection E as <-. exists raw. split; [|exact Ht].
    exact (text_encoder_output g req raw ti Hr Hb Ho).
  - destruct (compute_similarity_ok file s g r Hh)
      as [? [? [? [? [? [? [? [_ [_ [_ [_ [_ [_ [_ ->]]]]]]]]]]]]]].
    destruct (render_features_inv _ _ Hs) as [features [E _]]. discriminate.
Qed.

(** The converse: when no row of the encoder output has norm zero, the
    request is answered with the rows divided by their norms. *)
Lemma app_features (g : globals) (req : http_request) (raw : rows R) :
  encoder_output g req raw ->
  Forall (fun row => l2norm row <> 0) raw ->
  fst (app req g) = Http200 (JsonFeatures (divided_by_norm raw)).
Proof.
  intros H Hn. destruct H as [file tensor Hr Hf Hd Ho | ti Hr Hb Ho].
  - rewrite (app_encode_image g req file Hr Hf).
    rewrite (run_endpoint_ok _ g (FeaturesResponse (normalize raw)));
      [|rewrite (encode_image_returns file g tensor raw Hd Ho); reflexivity].
    cbn [render]. rewrite (normalize_finite _ Hn). reflexivity.
  - rewrite (app_encode_text g req ti Hr Hb).
    rewrite (run_endpoint_ok _ g (FeaturesResponse (normalize raw)));
      [|rewrite (encode_text_returns ti g raw Ho); reflexivity].
    cbn [render]. rewrite (normalize_finite _ Hn). reflexivity.
Qed.

End Responses.

Section Similarity.
Context {L : Libs}.

Lemma similarity_input_path (g : globals) (req : http_request)
      (image : list R) (texts : rows R) (ti : TextInput) :
  similarity_input g req image texts ti ->
  req_path req = "/compute_similarity/" /\ form_text_input req = Some ti.
Proof. intros H. destruct H. split; assumption. Qed.

(** The inputs of a similarity request are unique. *)
Lemma similarity_input_unique (g : globals) (req : http_request)
      (image image' : list R) (texts texts' : rows R) (ti ti' : TextInput) :
  similarity_input g req image texts ti ->
  similarity_input g req image' texts' ti' ->
  image = image' /\ texts = texts' /\ ti = ti'.
Proof.
  intros H H'.
  destruct H as [file tensor _ Hf Hd Ht Hi Ho].
  destruct H' as [file' tensor' _ Hf' Hd' Ht' Hi' Ho'].
  rewrite Hf in Hf'. injection Hf' as <-.
  rewrite Hd in Hd'. injection Hd' as <-.
  rewrite Ht in Ht'. injection Ht' as <-.
  rewrite Hi in Hi'. injection Hi' as <-.
  rewrite Ho in Ho'. injection Ho' as <-.
  auto.
Qed.

Lemma similarity_input_shape (g : globals) (D : nat) (req : http_request)
      (image : list R) (texts : rows R) (ti : TextInput) :
  model_laws g D -> similarity_input g req image texts ti ->
  image <> []
  /\ Forall (fun t => List.length t = List.length image) texts
  /\ List.length texts = List.length (text_list ti).
Proof.
  intros Hl H. destruct H as [file tensor _ _ _ _ Himg Htxt].
  destruct (image_output_shape g D tensor _ Hl Himg) as [image' [E Hlen]].
  injection E as <-.
  destruct (text_output_shape g D _ _ Hl Htxt) as [Hn Hw].
  pose proof (embed_dim_pos g D Hl) as HD.
  split; [intros ->; simpl in Hlen; lia|].
  split; [rewrite Hlen; exact Hw | exact Hn].
Qed.

(** A 200 response carrying probabilities comes from the similarity route;
    its probabilities are the serialised softmax of the logits row. *)
Lemma app_similarity_inv (g : globals) (D : nat) (req : http_request)
      (p : list R) (labels : list string) :
  model_laws g D ->
  fst (app req g) = Http200 (JsonSimilarity p labels) ->
  exists image texts ti,
    similarity_input g req image texts ti
    /\ labels = text_list ti
    /\ traverse finite (softmax_row (map (logit image) texts)) = Some p.
Proof.
  intros Hl H. apply app_200_inv in H.
  destruct H as [[Hr [file [r [Hf [Hh Hs]]]]]
                | [[Hr [ti [r [Hb [Hh Hs]]]]]
                  | [Hr [file [s [r [Hf [Hp [Hh Hs]]]]]]]]].
  - destruct (encode_image_ok file g r Hh) as [tensor [raw [_ [_ ->]]]].
    destruct (render_similarity_inv _ _ _ Hs) as [q [E _]]. discriminate.
  - destruct (encode_text_ok ti g r Hh) as [raw [_ ->]].
    destruct (render_similarity_inv _ _ _ Hs) as [q [E _]]. discriminate.
  - destruct (compute_similarity_ok file s g r Hh)
      as [members [ti [tensor [img [texts [logits [row0
           [Hj [Hv [Hd [Hi [Ht [Hm [Hh0 ->]]]]]]]]]]]]]].
    destruct (render_similarity_inv _ _ _ Hs) as [q [E Hq]].
    injection E as <- <-.
    destruct (image_output_shape g D tensor img Hl Hi) as [image [-> Hlen]].
    assert (Hin : similarity_input g req image texts ti).
    { apply (similarity_input_intro g req image texts ti file tensor Hr Hf Hd);
        [|exact Hi|exact Ht].
      unfold form_text_input. rewrite Hp, Hj. exact Hv. }
    destruct (similarity_input_shape g D req _ _ _ Hl Hin) as [Hne [Hw _]].
    rewrite (matmul_normalized image texts Hne Hw) in Hm.
    injection Hm as <-. cbn [softmax map hd_error] in Hh0.
    injection Hh0 as <-.
    exists image, texts, ti. auto.
Qed.

(** The converse: with no text, or with no zero norm, the request is
    answered with the softmax of the scaled inner products. *)
Lemma app_similarity (g : globals) (D : nat) (req : http_request)
      (image : list R) (texts : rows R) (ti : TextInput) :
  model_laws g D ->
  similarity_input g req image texts ti ->
  texts = [] \/ (l2norm image <> 0 /\ Forall (fun t => l2norm t <> 0) texts) ->
  fst (app req g)
  = Http200 (JsonSimilarity
               (softmaxR (map (fun t => 100 * dot (unit_row image) (unit_row t)) texts))
               (text_list ti)).
Proof.
  intros Hl Hin Hcases.
  destruct (similarity_input_shape g D req _ _ _ Hl Hin) as [Hne [Hw _]].
  assert (Hlog : map (logit image) texts
                 = map Fin (map (fun t => 100 * dot (unit_row image) (unit_row t)) texts)).
  { destruct Hcases as [->|[Hi Hall]]; [reflexivity | apply logits_Fin; assumption]. }
  destruct Hin as [file tensor Hr Hf Hd Ht Himg Htxt].
  unfold form_text_input in Ht.
  destruct (form_param (req_body req)) as [s|] eqn:Hs; [|discriminate].
  destruct (json_loads s) as [d|] eqn:Hj; [|discriminate].
  destruct d; try discriminate.
  rewrite (app_compute_similarity g req file s Hr Hf Hs).
  pose proof (compute_similarity_returns file s g members ti tensor [image] texts
                Hj Ht Hd Himg Htxt) as Hrun.
  rewrite (matmul_normalized image texts Hne Hw) in Hrun.
  cbn [softmax map hd_error] in Hrun.
  rewrite (run_endpoint_ok _ g _ (f_equal fst Hrun)).
  cbn [render]. rewrite Hlog, softmax_row_Fin, traverse_finite_Fin. reflexivity.
Qed.

Lemma similarity_content (g : globals) (req : http_request)
      (content : json_response) :
  req_path req = "/compute_similarity/" ->
  fst (app req g) = Http200 content ->
  exists p labels, content = JsonSimilarity p labels.
Proof.
  intros Hr H. destruct content as [F | p labels]; [|eauto].
  destruct (app_features_inv g req F H) as [raw [Henc _]].
  apply encoder_output_path in Henc. rewrite Hr in Henc.
  destruct Henc; discriminate.
Qed.

Lemma encoding_content (g : globals) (req : http_request) (content : json_response) :
  req_path req = "/encode_image/" \/ req_path req = "/encode_text/" ->
  fst (app req g) = Http200 content ->
  exists F, content = JsonFeatures F.
Proof.
  intros Hpath H. destruct content as [F | p labels]; [eauto|].
  apply app_200_inv in H.
  destruct H as [[Hr [file [r [Hf [Hh Hs]]]]]
                | [[Hr [ti [r [Hb [Hh Hs]]]]]
                  | [Hr _]]].
  - destruct (encode_image_ok file g r Hh) as [tensor [raw [_ [_ ->]]]].
    destruct (render_similarity_inv _ _ _ Hs) as [q [E _]]. discriminate.
  - destruct (encode_text_ok ti g r Hh) as [raw [_ ->]].
    destruct (render_similarity_inv _ _ _ Hs) as [q [E _]]. discriminate.
  - rewrite Hr in Hpath. destruct Hpath; discriminate.
Qed.

Lemma similarity_probabilities (g : globals) (D : nat) (req : http_request)
      (p : list R) (labels : list string) :
  model_laws g D ->
  fst (app req g) = Http200 (JsonSimilarity p labels) ->
  exists image texts ti,
    similarity_input g req image texts ti
    /\ labels = text_list ti
    /\ List.length texts = List.length labels
    /\ p = softmaxR (map (fun t => 100 * dot (unit_row image) (unit_row t)) texts)
    /\ (texts = [] \/ (l2norm image <> 0 /\ Forall (fun t => l2norm t <> 0) texts)).
Proof.
  intros Hl H.
  destruct (app_similarity_inv g D req p labels Hl H)
    as [image [texts [ti [Hin [-> Hser]]]]].
  destruct (softmax_row_render _ _ Hser) as [xs [Hxs ->]].
  destruct (logits_finite image texts xs Hxs) as [-> Hcases].
  destruct (similarity_input_shape g D req _ _ _ Hl Hin) as [_ [_ Hlen]].
  exists image, texts, ti. auto.
Qed.

End Similarity.

(* ================================================================== *)
(** ** Facts about the small instance *)
(* ================================================================== *)

Section ToyFacts.

Lemma l2norm_3_4 : l2norm [3; 4] = 5.
Proof.
  unfold l2norm, sum. simpl. apply sqrt_lem_1; lra.
Qed.

Lemma l2norm_1_0 : l2norm [1; 0] = 1.
Proof.
  unfold l2norm, sum. simpl. apply sqrt_lem_1; lra.
Qed.

Lemma l2norm_0_2 : l2norm [0; 2] = 2.
Proof.
  unfold l2norm, sum. simpl. apply sqrt_lem_1; lra.
Qed.

Lemma l2norm_0_0 : l2norm [0; 0] = 0.
Proof.
  unfold l2norm, sum. simpl. apply sqrt_lem_1; lra.
Qed.

Lemma toy_laws : @model_laws Toy.libs Toy.g 2.
Proof.
  split.
  - lia.
  - intros texts toks H. injection H as <-. reflexivity.
  - intros d b t H. injection H as <-. apply length_map.
  - intros d b t H. injection H as <-. apply length_map.
  - intros d b t H. injection H as <-. apply Forall_forall. intros row Hrow.
    apply in_map_iff in Hrow. destruct Hrow as [_ [<- _]]. reflexivity.
  - intros d b t H. injection H as <-. apply Forall_forall. intros row Hrow.
    apply in_map_iff in Hrow. destruct Hrow as [s [<- _]].
    destruct (String.eqb s "shirt"); reflexivity.
Qed.

Lemma toy_loaded : @loaded Toy.libs Toy.g.
Proof. exists 2%nat. exact toy_laws. Qed.

Lemma toy_image_output :
  @encoder_output Toy.libs Toy.g Toy.image_request [[3; 4]].
Proof.
  apply (@image_encoder_output Toy.libs Toy.g Toy.image_request [[3; 4]]
           Toy.picture 4%nat); reflexivity.
Qed.

Lemma toy_image_response :
  fst (@app Toy.libs Toy.image_request Toy.g)
  = Http200 (JsonFeatures (divided_by_norm [[3; 4]])).
Proof.
  apply app_features; [exact toy_image_output|].
  constructor; [|constructor]. rewrite l2norm_3_4. lra.
Qed.

Lemma toy_similarity_input :
  @similarity_input Toy.libs Toy.g (Toy.similarity_request Toy.two_labels)
    [3; 4] [[1; 0]; [0; 2]] {| text_list := ["shirt"; "dress"] |}.
Proof.
  apply (@similarity_input_intro Toy.libs Toy.g (Toy.similarity_request Toy.two_labels)
           [3; 4] [[1; 0]; [0; 2]] {| text_list := ["shirt"; "dress"] |}
           Toy.picture 4%nat); reflexivity.
Qed.

Lemma toy_similarity_response :
  fst (@app Toy.libs (Toy.similarity_request Toy.two_labels) Toy.g)
  = Http200 (JsonSimilarity
               (softmaxR (map (fun t => 100 * dot (unit_row [3; 4]) (unit_row t))
                              [[1; 0]; [0; 2]]))
               ["shirt"; "dress"]).
Proof.
  apply (app_similarity Toy.g 2 _ _ _ _ toy_laws toy_similarity_input).
  right. split.
  - rewrite l2norm_3_4. lra.
  - constructor; [rewrite l2norm_1_0; lra|].
    constructor; [rewrite l2norm_0_2; lra | constructor].
Qed.


End ToyFacts.

(* ================================================================== *)
(** ** Properties of the endpoints *)
(* ================================================================== *)

Section Properties.
Context {L : Libs}.


(** C7. No handler assigns to the module globals: after any request, and
    after any sequence of requests, the globals (model, tokenizer,
    preprocess_val, device) are those the process started with. *)
Theorem globals_are_preserved (g : globals) :
  (forall reqs, snd (serve reqs startup) = startup)
  /\ (forall file, snd (encode_image file g) = g)
  /\ (forall text_input, snd (encode_text text_input g) = g)
  /\ (forall file text_input, snd (compute_similarity file text_input g) = g)
  /\ (forall req, snd (app req g) = g)
  /\ (forall reqs, snd (serve reqs g) = g).
Proof.
  assert (Hserve : forall g0 reqs, snd (serve reqs g0) = g0).
  { intros g0 reqs. induction reqs as [|req reqs IH]; simpl.
    - reflexivity.
    - pose proof (app_state req g0) as Hreq.
      destruct (app req g0) as [resp g']. simpl in Hreq. subst g'.
      destruct (serve reqs g0) as [resps g'']. simpl in IH. subst g''.
      reflexivity. }
  split; [intros; apply Hserve|].
  split; [intros; apply readonly_encode_image|].
  split; [intros; apply readonly_encode_text|].
  split; [intros; apply readonly_compute_similarity|].
  split; [intros; apply app_state|].
  intros; apply Hserve.
Qed.



(** C5. For every successful request to [/compute_similarity/], the labels
    of the response are the request's text list, in order, and there is
    exactly one probability per label. *)
Theorem labels_match_probabilities (g : globals) (req : http_request)
        (ti : TextInput) (content : json_response) :
  loaded g ->
  req_path req = "/compute_similarity/" ->
  form_text_input req = Some ti ->
  fst (app req g) = Http200 content ->
  exists p,
    content = JsonSimilarity p (text_list ti)
    /\ List.length p = List.length (text_list ti)
    /\ List.length (combine (text_list ti) p) = List.length (text_list ti).
Proof.
  intros [D Hl] Hr Hti H.
  destruct (similarity_content g req content Hr H) as [p [labels ->]].
  destruct (similarity_probabilities g D req p labels Hl H)
    as [image [texts [ti' [Hin [-> [Hlen [-> _]]]]]]].
  destruct (similarity_input_path g req _ _ _ Hin) as [_ Hti'].
  rewrite Hti in Hti'. injection Hti' as <-.
  eexists. split; [reflexivity|].
  assert (E : List.length
                (softmaxR (map (fun t => 100 * dot (unit_row image) (unit_row t)) texts))
              = List.length (text_list ti))
    by (rewrite softmaxR_length, length_map; exact Hlen).
  split; [exact E|].
  rewrite length_combine, E. apply Nat.min_id.
Qed.


End Properties.

Section ErrorProperties.
Context {L : Libs}.

Lemma encode_image_undecodable (file : UploadFile) (g : globals) :
  decode_image g file = None ->
  exists e, fst (encode_image file g) = Raise e.
Proof.
  unfold decode_image. intros H. rewrite encode_image_run.
  destruct (Image_open file) as [image|]; [|simpl; eauto].
  rewrite H. simpl. eauto.
Qed.

Lemma compute_similarity_undecodable (file : UploadFile) (s : string) (g : globals) :
  decode_image g file = None ->
  exists e, fst (compute_similarity file s g) = Raise e.
Proof.
  unfold decode_image. intros H. rewrite compute_similarity_run.
  destruct (json_loads s) as [d|]; [|simpl; eauto].
  destruct (fst (TextInput_new d g)); [|simpl; eauto].
  destruct (Image_open file) as [image|]; [|simpl; eauto].
  rewrite H. simpl. eauto.
Qed.

Lemma compute_similarity_bad_json (file : UploadFile) (s : string) (g : globals) :
  json_loads s = None ->
  fst (compute_similarity file s g) = Raise JSONDecodeError.
Proof. intros H. rewrite compute_similarity_run, H. reflexivity. Qed.


(** C3. A request whose uploaded file is not a parseable image, or, on
    [/compute_similarity/], whose [text_input] field is not parseable JSON,
    is answered with an error, never with features or probabilities. *)
Theorem malformed_input_is_rejected (g : globals) (req : http_request) :
  ((req_path req = "/encode_image/" \/ req_path req = "/compute_similarity/")
   /\ exists file, file_param (req_body req) = Some file /\ decode_image g file = None)
  \/ (req_path req = "/compute_similarity/"
      /\ exists s, text_input_field (req_body req) = Some s /\ json_loads s = None) ->
  is_error (fst (app req g)) = true
  /\ forall content, fst (app req g) <> Http200 content.
Proof.
  intros H.
  assert (E : is_error (fst (app req g)) = true).
  { destruct H as [[[Hr|Hr] [file [Hf Hd]]] | [Hr [s [Hs Hj]]]].
    - rewrite (app_encode_image g req file Hr Hf).
      destruct (encode_image_undecodable file g Hd) as [e He].
      rewrite (run_endpoint_raise _ g e He). reflexivity.
    - unfold app. rewrite Hr, route_compute_similarity. cbn [call]. rewrite Hf.
      destruct (form_param (req_body req)) as [s|]; [|reflexivity].
      destruct (compute_similarity_undecodable file s g Hd) as [e He].
      rewrite (run_endpoint_raise _ g e He). reflexivity.
    - unfold app. rewrite Hr, route_compute_similarity. cbn [call].
      destruct (file_param (req_body req)) as [file|]; [|reflexivity].
      unfold form_param. rewrite Hs.
      destruct (String.eqb s ""); [reflexivity|].
      rewrite (run_endpoint_raise _ g _ (compute_similarity_bad_json file s g Hj)).
      reflexivity. }
  split; [exact E|].
  intros content Hc. rewrite Hc in E. discriminate.
Qed.





End ErrorProperties.

Section ZeroNorm.
Context {L : Libs}.


(** Whatever the serialiser accepts of a normalised row has norm 1. *)
Lemma finite_normalized_row_is_unit (row out : list R) :
  row <> [] -> traverse finite (normalize_row row) = Some out -> l2norm out = 1.
Proof.
  intros Hne H. destruct (normalize_row_render row out Hne H) as [Hnz ->].
  apply l2norm_unit_row. exact Hnz.
Qed.


(** A zero row in the encoder output never reaches the client: the
    serialiser refuses the NaN entries. *)
Lemma zero_row_is_not_served (g : globals) (D : nat) (req : http_request)
      (raw : rows R) :
  model_laws g D ->
  encoder_output g req raw ->
  Exists (fun row => l2norm row = 0) raw ->
  forall content, fst (app req g) <> Http200 content.
Proof.
  intros Hl Henc Hz content H.
  assert (Hp := encoder_output_path g req raw Henc).
  destruct (encoding_content g req content Hp H) as [F ->].
  destruct (app_features_inv g req F H) as [raw' [Henc' Hser]].
  pose proof (encoder_output_width g D req raw' Hl Henc') as Hne.
  destruct (normalize_render raw' F Hne Hser) as [Hnz _].
  rewrite (encoder_output_unique g req raw raw' Henc Henc') in Hz.
  apply Exists_exists in Hz. destruct Hz as [row [Hin Hrow]].
  rewrite Forall_forall in Hnz. exact (Hnz row Hin Hrow).
Qed.

(** The same on the similarity route: with at least one text, a zero norm
    on either side leaves no probabilities to serve. *)
Lemma zero_norm_similarity_is_not_served (g : globals) (D : nat) (req : http_request)
      (image : list R) (texts : rows R) (ti : TextInput) :
  model_laws g D ->
  similarity_input g req image texts ti ->
  texts <> [] ->
  l2norm image = 0 \/ Exists (fun t => l2norm t = 0) texts ->
  forall content, fst (app req g) <> Http200 content.
Proof.
  intros Hl Hin Hne Hz content H.
  destruct (similarity_input_path g req _ _ _ Hin) as [Hr _].
  destruct (similarity_content g req content Hr H) as [p [labels ->]].
  destruct (similarity_probabilities g D req p labels Hl H)
    as [image' [texts' [ti' [Hin' [_ [_ [_ Hcases]]]]]]].
  destruct (similarity_input_unique g req _ _ _ _ _ _ Hin Hin') as [<- [<- _]].
  destruct Hcases as [E|[Hi Hall]]; [contradiction|].
  destruct Hz as [Hz|Hz]; [contradiction|].
  apply Exists_exists in Hz. destruct Hz as [t [Ht Hzero]].
  rewrite Forall_forall in Hall. exact (Hall t Ht Hzero).
Qed.

End ZeroNorm.

(* ================================================================== *)
(** ** Runs on the small instance *)
(* ================================================================== *)




(** A run of C5. *)
Lemma labels_match_probabilities_witness :
  exists p,
    fst (@app Toy.libs (Toy.similarity_request Toy.two_labels) Toy.g)
    = Http200 (JsonSimilarity p ["shirt"; "dress"])
    /\ List.length p = 2%nat.
Proof.
  destruct (labels_match_probabilities (L := Toy.libs) Toy.g
              (Toy.similarity_request Toy.two_labels)
              {| text_list := ["shirt"; "dress"] |} _
              toy_loaded eq_refl eq_refl toy_similarity_response)
    as [p [Hc [Hlen _]]].
  exists p. split; [|exact Hlen].
  rewrite toy_similarity_response. f_equal. exact Hc.
Defined.


(** A run of C3: an upload that is not an image. *)
Lemma malformed_input_is_rejected_witness :
  @decode_image Toy.libs Toy.g [] = None
  /\ is_error (fst (@app Toy.libs Toy.broken_image_request Toy.g)) = true.
Proof.
  split; [reflexivity|].
  refine (proj1 (malformed_input_is_rejected (L := Toy.libs) Toy.g
                   Toy.broken_image_request _)).
  left. split; [left; reflexivity|].
  exists []. split; reflexivity.
Defined.



(** A run of C7: two requests in a row. *)
Lemma globals_are_preserved_witness :
  snd (@serve Toy.libs [Toy.image_request; Toy.similarity_request Toy.two_labels] Toy.g)
  = Toy.g.
Proof.
  destruct (globals_are_preserved (L := Toy.libs) Toy.g) as [_ [_ [_ [_ [_ H]]]]].
  apply H.
Defined.


(* ================================================================== *)
(** ** Further properties of the handlers *)
(* ================================================================== *)

Section LabFacts.

Lemma lab_laws : @model_laws Lab.libs Lab.g 2.
Proof.
  split.
  - lia.
  - intros texts toks H. injection H as <-. reflexivity.
  - intros d b t H. injection H as <-. apply length_map.
  - intros d b t H. injection H as <-. apply length_map.
  - intros d b t H. injection H as <-. apply Forall_forall. intros row Hrow.
    apply in_map_iff in Hrow. destruct Hrow as [n [<- _]].
    destruct (Nat.eqb n 1); reflexivity.
  - intros d b t H. injection H as <-. apply Forall_forall. intros row Hrow.
    apply in_map_iff in Hrow. destruct Hrow as [s [<- _]].
    destruct (String.eqb s "blank"); [reflexivity|].
    destruct (String.eqb s "shirt"); reflexivity.
Qed.

Lemma lab_loaded : @loaded Lab.libs Lab.g.
Proof. exists 2%nat. exact lab_laws. Qed.

End LabFacts.

Section Bounds.



Lemma unit_row_length (row : list R) : List.length (unit_row row) = List.length row.
Proof. apply length_map. Qed.

Lemma divided_by_norm_length (t : rows R) :
  List.length (divided_by_norm t) = List.length t.
Proof. apply length_map. Qed.

Lemma divided_by_norm_width (D : nat) (t : rows R) :
  Forall (fun row => List.length row = D) t ->
  Forall (fun row => List.length row = D) (divided_by_norm t).
Proof.
  induction 1 as [|row t Hrow _ IH]; simpl; constructor.
  - rewrite unit_row_length. exact Hrow.
  - exact IH.
Qed.

End Bounds.

Section FeatureProperties.
Context {L : Libs}.

Lemma encoder_output_shape (g : globals) (D : nat) (req : http_request) (raw : rows R) :
  model_laws g D -> encoder_output g req raw ->
  Forall (fun row => List.length row = D) raw
  /\ (req_path req = "/encode_image/" -> List.length raw = 1%nat)
  /\ (forall ti, req_path req = "/encode_text/" ->
                 body_param (req_body req) = Some ti ->
                 List.length raw = List.length (text_list ti)).
Proof.
  intros Hl H. destruct H as [file tensor Hr _ _ Ho | ti Hr Hb Ho].
  - destruct (image_output_shape g D tensor raw Hl Ho) as [image [-> Hlen]].
    split; [constructor; [exact Hlen | constructor]|].
    split; [reflexivity|].
    intros ti Hr'. rewrite Hr in Hr'. discriminate.
  - destruct (text_output_shape g D _ _ Hl Ho) as [Hn Hw].
    split; [exact Hw|]. split.
    + intros Hr'. rewrite Hr in Hr'. discriminate.
    + intros ti' _ Hb'. rewrite Hb in Hb'. injection Hb' as <-. exact Hn.
Qed.

Lemma app_features_full (g : globals) (D : nat) (req : http_request) (F : rows R) :
  model_laws g D ->
  fst (app req g) = Http200 (JsonFeatures F) ->
  exists raw, encoder_output g req raw
              /\ Forall (fun row => l2norm row <> 0) raw
              /\ F = divided_by_norm raw.
Proof.
  intros Hl H.
  destruct (app_features_inv g req F H) as [raw [Henc Hser]].
  pose proof (encoder_output_width g D req raw Hl Henc) as Hne.
  destruct (normalize_render raw F Hne Hser) as [Hnz ->].
  exists raw. auto.
Qed.

(** X1. A successful answer of [/encode_image/] holds exactly one feature
    row, one of [/encode_text/] holds one row per text of the request, and
    every row has the embedding width of the model. *)
Theorem features_shape (g : globals) (D : nat) (req : http_request) (F : rows R) :
  model_laws g D ->
  fst (app req g) = Http200 (JsonFeatures F) ->
  Forall (fun row => List.length row = D) F
  /\ (req_path req = "/encode_image/" -> List.length F = 1%nat)
  /\ (forall ti, req_path req = "/encode_text/" ->
                 body_param (req_body req) = Some ti ->
                 List.length F = List.length (text_list ti)).
Proof.
  intros Hl H.
  destruct (app_features_full g D req F Hl H) as [raw [Henc [_ ->]]].
  destruct (encoder_output_shape g D req raw Hl Henc) as [Hw [Hi Ht]].
  rewrite divided_by_norm_length.
  split; [apply divided_by_norm_width; exact Hw|].
  split; assumption.
Qed.


(** X3. A request to [/encode_text/] with an empty text list is answered
    with an empty list of features, as long as tokenizer and encoder return
    on the empty batch. *)
Theorem encode_text_empty_list (g : globals) (req : http_request)
        (ti : TextInput) (raw : rows R) :
  loaded g ->
  req_path req = "/encode_text/" ->
  body_param (req_body req) = Some ti ->
  text_list ti = [] ->
  text_output g (text_list ti) = Some raw ->
  fst (app req g) = Http200 (JsonFeatures []).
Proof.
  intros [D Hl] Hr Hb Hempty Ho.
  destruct (text_output_shape g D _ _ Hl Ho) as [Hn _].
  rewrite Hempty in Hn. apply length_zero_iff_nil in Hn. subst raw.
  pose proof (text_encoder_output g req [] ti Hr Hb Ho) as Henc.
  apply (app_features g req [] Henc). constructor.
Qed.



End FeatureProperties.

Section ZeroRows.
Context {L : Libs}.

Lemma normalize_unserialisable (t : rows R) :
  Forall (fun row => row <> []) t ->
  Exists (fun row => l2norm row = 0) t ->
  traverse (traverse finite) (normalize t) = None.
Proof.
  intros Hne Hz.
  destruct (traverse (traverse finite) (normalize t)) as [F|] eqn:E; [|reflexivity].
  destruct (normalize_render t F Hne E) as [Hnz _].
  apply Exists_exists in Hz. destruct Hz as [row [Hin Hrow]].
  rewrite Forall_forall in Hnz. exfalso. exact (Hnz row Hin Hrow).
Qed.

(** The answer to a similarity request whose library calls return. *)
Lemma app_similarity_run (g : globals) (D : nat) (req : http_request)
      (image : list R) (texts : rows R) (ti : TextInput) :
  model_laws g D ->
  similarity_input g req image texts ti ->
  fst (app req g)
  = match traverse finite (softmax_row (map (logit image) texts)) with
    | Some p => Http200 (JsonSimilarity p (text_list ti))
    | None => Http500 ValueError
    end.
Proof.
  intros Hl Hin.
  destruct (similarity_input_shape g D req _ _ _ Hl Hin) as [Hne [Hw _]].
  destruct Hin as [file tensor Hr Hf Hd Ht Himg Htxt].
  unfold form_text_input in Ht.
  destruct (form_param (req_body req)) as [s|] eqn:Hs; [|discriminate].
  destruct (json_loads s) as [d|] eqn:Hj; [|discriminate].
  destruct d; try discriminate.
  rewrite (app_compute_similarity g req file s Hr Hf Hs).
  pose proof (compute_similarity_returns file s g members ti tensor [image] texts
                Hj Ht Hd Himg Htxt) as Hrun.
  rewrite (matmul_normalized image texts Hne Hw) in Hrun.
  cbn [softmax map hd_error] in Hrun.
  rewrite (run_endpoint_ok _ g _ (f_equal fst Hrun)).
  cbn [render]. destruct (traverse finite _); reflexivity.
Qed.

(** X6. When the encoder returns a row of norm zero, the request to an
    encoding route is answered 500: the handler returns NaN entries and the
    serialiser raises ValueError on them. *)
Theorem zero_row_gives_500 (g : globals) (D : nat) (req : http_request) (raw : rows R) :
  model_laws g D ->
  encoder_output g req raw ->
  Exists (fun row => l2norm row = 0) raw ->
  fst (app req g) = Http500 ValueError.
Proof.
  intros Hl Henc Hz.
  pose proof (encoder_output_width g D req raw Hl Henc) as Hne.
  pose proof (normalize_unserialisable raw Hne Hz) as Hser.
  destruct Henc as [file tensor Hr Hf Hd Ho | ti Hr Hb Ho].
  - rewrite (app_encode_image g req file Hr Hf).
    rewrite (run_endpoint_ok _ g (FeaturesResponse (normalize raw)));
      [|rewrite (encode_image_returns file g tensor raw Hd Ho); reflexivity].
    cbn [render]. rewrite Hser. reflexivity.
  - rewrite (app_encode_text g req ti Hr Hb).
    rewrite (run_endpoint_ok _ g (FeaturesResponse (normalize raw)));
      [|rewrite (encode_text_returns ti g raw Ho); reflexivity].
    cbn [render]. rewrite Hser. reflexivity.
Qed.

(** X7. On [/compute_similarity/], with at least one text, a zero norm of
    the image row or of any text row makes every probability NaN, and the
    request is answered 500 (ValueError of the serialiser). *)
Theorem zero_norm_similarity_gives_500 (g : globals) (D : nat) (req : http_request)
        (image : list R) (texts : rows R) (ti : TextInput) :
  model_laws g D ->
  similarity_input g req image texts ti ->
  texts <> [] ->
  l2norm image = 0 \/ Exists (fun t => l2norm t = 0) texts ->
  softmax_row (map (logit image) texts) = map (fun _ => NaN) texts
  /\ fst (app req g) = Http500 ValueError.
Proof.
  intros Hl Hin Hne Hz.
  assert (Hnone : traverse finite (map (logit image) texts) = None).
  { destruct (traverse finite (map (logit image) texts)) as [xs|] eqn:E; [|reflexivity].
    apply traverse_finite_inv in E.
    destruct (logits_finite image texts xs E) as [_ [Hn|[Hi Hall]]]; [contradiction|].
    destruct Hz as [Hz|Hz]; [contradiction|].
    apply Exists_exists in Hz. destruct Hz as [t [Ht Hzero]].
    rewrite Forall_forall in Hall. exfalso. exact (Hall t Ht Hzero). }
  assert (Hsoft : softmax_row (map (logit image) texts) = map (fun _ => NaN) texts).
  { unfold softmax_row. rewrite Hnone, map_map. reflexivity. }
  split; [exact Hsoft|].
  rewrite (app_similarity_run g D req image texts ti Hl Hin), Hsoft.
  rewrite traverse_finite_NaN; [reflexivity|].
  destruct texts as [|t texts]; [congruence|]. left. reflexivity.
Qed.

End ZeroRows.

Section CrossEndpoint.
Context {L : Libs}.


(** X9. A successful similarity request with a single label always returns
    the probability 1 for it, whatever the picture. *)
Theorem single_label_probability_one (g : globals) (req : http_request)
        (p : list R) (label : string) :
  loaded g ->
  fst (app req g) = Http200 (JsonSimilarity p [label]) ->
  p = [1].
Proof.
  intros [D Hl] H.
  destruct (similarity_probabilities g D req p [label] Hl H)
    as [image [texts [ti [_ [_ [Hlen [-> _]]]]]]].
  destruct texts as [|t [|t' texts]]; simpl in Hlen; try discriminate.
  unfold softmaxR. cbn [map]. unfold sum. cbn [fold_right].
  f_equal. pose proof (exp_pos (100 * dot (unit_row image) (unit_row t))).
  field. lra.
Qed.

End CrossEndpoint.

Section Ranking.
Context {L : Libs}.










End Ranking.

Section TextInputProperties.
Context {L : Libs}.

Lemma traverse_Forall2 {A B : Type} (f : A -> option B) (l : list A) (l' : list B) :
  Forall2 (fun x y => f x = Some y) l l' -> traverse f l = Some l'.
Proof.
  induction 1 as [|x y l l' Hxy _ IH]; simpl.
  - reflexivity.
  - rewrite Hxy, IH. reflexivity.
Qed.

Lemma TextInput_validate_inv (members : list (string * json)) (ti : TextInput) :
  TextInput_validate members = Some ti ->
  exists items,
    assoc "text_list" members = Some (JArr items)
    /\ Forall2 (fun item label => str_validate item = Some label) items (text_list ti).
Proof.
  unfold TextInput_validate. intros H.
  destruct (assoc "text_list" members) as [[| | | |items|]|]; try discriminate.
  destruct (traverse str_validate items) as [l|] eqn:Ht; [|discriminate].
  injection H as <-. exists items. split; [reflexivity|].
  apply traverse_inv. exact Ht.
Qed.

(** X13. The labels of a successful similarity answer are the items of the
    [text_list] array of the submitted JSON object, each passed through the
    string validator, in the same order; when the validator returns strings
    as they are, a list of strings comes back unchanged. *)
Theorem labels_round_trip (g : globals) (req : http_request) (s : string)
        (members : list (string * json)) (content : json_response) :
  loaded g ->
  req_path req = "/compute_similarity/" ->
  form_param (req_body req) = Some s ->
  json_loads s = Some (JObj members) ->
  fst (app req g) = Http200 content ->
  exists items p labels,
    assoc "text_list" members = Some (JArr items)
    /\ content = JsonSimilarity p labels
    /\ Forall2 (fun item label => str_validate item = Some label) items labels
    /\ List.length p = List.length items
    /\ ((forall x, str_validate (JStr x) = Some x) ->
        forall l, items = map JStr l -> labels = l).
Proof.
  intros [D Hl] Hr Hs Hj H.
  destruct (similarity_content g req content Hr H) as [p [labels ->]].
  destruct (similarity_probabilities g D req p labels Hl H)
    as [image [texts [ti [Hin [-> [Hlen [Hp _]]]]]]].
  destruct (similarity_input_path g req _ _ _ Hin) as [_ Hti].
  unfold form_text_input in Hti. rewrite Hs, Hj in Hti.
  destruct (TextInput_validate_inv members ti Hti) as [items [Hk Hall]].
  exists items, p, (text_list ti).
  split; [exact Hk|]. split; [reflexivity|]. split; [exact Hall|]. split.
  - rewrite Hp, softmaxR_length, length_map, Hlen.
    symmetry. apply (Forall2_length Hall).
  - intros Hstr l ->.
    assert (E : traverse str_validate (map JStr l) = Some l).
    { rewrite (traverse_map str_validate JStr (fun x => x)).
      - rewrite map_id. reflexivity.
      - intros x _. apply Hstr. }
    rewrite (traverse_Forall2 _ _ _ Hall) in E. congruence.
Qed.


(** X15. With a model that keeps batch size and width, the similarity
    handler never fails on shapes: the product of line 83 never raises
    RuntimeError and the indexing of line 86 never raises IndexError. *)
Theorem no_shape_or_index_error (g : globals) (file : UploadFile) (s : string) :
  loaded g ->
  fst (compute_similarity file s g) <> Raise RuntimeError
  /\ fst (compute_similarity file s g) <> Raise IndexError.
Proof.
  intros [D Hl]. rewrite compute_similarity_run.
  destruct (json_loads s) as [d|]; [|split; discriminate].
  rewrite TextInput_new_run. cbn [fst].
  destruct d; try (split; discriminate).
  destruct (TextInput_validate members) as [obj|]; [|split; discriminate].
  destruct (Image_open file) as [image|]; [|split; discriminate].
  destruct (preprocess_val g image) as [tensor|]; [|split; discriminate].
  destruct (tokenizer g (text_list obj)) as [text|] eqn:Hk; [|split; discriminate].
  destruct (image_output g tensor) as [image_features|] eqn:Hi; [|split; discriminate].
  destruct (model_encode_text _ _ _) as [text_features|] eqn:Ht; [|split; discriminate].
  destruct (image_output_shape g D tensor _ Hl Hi) as [row [-> Hlen]].
  pose proof (encode_text_width g D Hl _ _ _ Ht) as Hw.
  pose proof (embed_dim_pos g D Hl) as HD.
  rewrite matmul_normalized.
  - cbn [softmax map hd_error]. split; discriminate.
  - intros ->. simpl in Hlen. lia.
  - rewrite Hlen. exact Hw.
Qed.

End TextInputProperties.

Section Statelessness.
Context {L : Libs}.

(** X16. Requests do not influence one another: serving a sequence of
    requests gives, position by position, the answer each request would get
    on its own from the initial globals. *)
Theorem serve_is_pointwise (g : globals) (reqs : list http_request) :
  fst (serve reqs g) = map (fun req => fst (app req g)) reqs.
Proof.
  induction reqs as [|req reqs IH]; simpl.
  - reflexivity.
  - pose proof (app_state req g) as Hreq.
    destruct (app req g) as [resp g']. simpl in Hreq. subst g'.
    destruct (serve reqs g) as [resps g'']. simpl in IH. subst resps.
    reflexivity.
Qed.

End Statelessness.

Section NormalizationAlgebra.




End NormalizationAlgebra.

(* ================================================================== *)
(** ** Runs of the further properties *)
(* ================================================================== *)

Section MoreRuns.




Lemma lab_dark_output :
  @encoder_output Lab.libs Lab.g (Lab.image_request Lab.dark_picture) [[0; 0]].
Proof.
  apply (@image_encoder_output Lab.libs Lab.g (Lab.image_request Lab.dark_picture)
           [[0; 0]] Lab.dark_picture 1%nat); reflexivity.
Qed.

Lemma lab_blank_input :
  @similarity_input Lab.libs Lab.g
    (Lab.similarity_request Toy.picture (Lab.one_label "blank"))
    [3; 4] [[0; 0]] {| text_list := ["blank"] |}.
Proof.
  apply (@similarity_input_intro Lab.libs Lab.g
           (Lab.similarity_request Toy.picture (Lab.one_label "blank"))
           [3; 4] [[0; 0]] {| text_list := ["blank"] |} Toy.picture 4%nat);
    reflexivity.
Qed.

Lemma lab_shirt_input :
  @similarity_input Lab.libs Lab.g
    (Lab.similarity_request Toy.picture (Lab.one_label "shirt"))
    [3; 4] [[1; 0]] {| text_list := ["shirt"] |}.
Proof.
  apply (@similarity_input_intro Lab.libs Lab.g
           (Lab.similarity_request Toy.picture (Lab.one_label "shirt"))
           [3; 4] [[1; 0]] {| text_list := ["shirt"] |} Toy.picture 4%nat);
    reflexivity.
Qed.

Lemma lab_shirt_response :
  fst (@app Lab.libs (Lab.similarity_request Toy.picture (Lab.one_label "shirt")) Lab.g)
  = Http200 (JsonSimilarity
               (softmaxR (map (fun t => 100 * dot (unit_row [3; 4]) (unit_row t))
                              [[1; 0]]))
               ["shirt"]).
Proof.
  apply (app_similarity Lab.g 2 _ _ _ _ lab_laws lab_shirt_input).
  right. split; [rewrite l2norm_3_4; lra|].
  constructor; [rewrite l2norm_1_0; lra | constructor].
Qed.

End MoreRuns.

(** A run of X1: one picture, one feature row of width 2. *)
Lemma features_shape_witness :
  exists F,
    fst (@app Toy.libs Toy.image_request Toy.g) = Http200 (JsonFeatures F)
    /\ List.length F = 1%nat
    /\ Forall (fun row => List.length row = 2%nat) F.
Proof.
  exists (divided_by_norm [[3; 4]]).
  destruct (features_shape (L := Toy.libs) Toy.g 2 Toy.image_request _
              toy_laws toy_image_response) as [Hw [Hone _]].
  split; [exact toy_image_response|]. split; [exact (Hone eq_refl) | exact Hw].
Defined.


(** A run of X3. *)
Lemma encode_text_empty_list_witness :
  fst (@app Toy.libs (Toy.text_request Toy.no_labels) Toy.g)
  = Http200 (JsonFeatures []).
Proof.
  exact (encode_text_empty_list (L := Toy.libs) Toy.g (Toy.text_request Toy.no_labels)
           {| text_list := [] |} [] toy_loaded eq_refl eq_refl eq_refl eq_refl).
Defined.



(** A run of X6: a picture encoded as the zero row. *)
Lemma zero_row_gives_500_witness :
  fst (@app Lab.libs (Lab.image_request Lab.dark_picture) Lab.g) = Http500 ValueError.
Proof.
  apply (zero_row_gives_500 (L := Lab.libs) Lab.g 2 _ [[0; 0]] lab_laws lab_dark_output).
  left. exact l2norm_0_0.
Defined.

(** A run of X7: a text encoded as the zero row. *)
Lemma zero_norm_similarity_gives_500_witness :
  fst (@app Lab.libs (Lab.similarity_request Toy.picture (Lab.one_label "blank")) Lab.g)
  = Http500 ValueError.
Proof.
  refine (proj2 (zero_norm_similarity_gives_500 (L := Lab.libs) Lab.g 2 _
                   [3; 4] [[0; 0]] _ lab_laws lab_blank_input _ _)).
  - discriminate.
  - right. left. exact l2norm_0_0.
Defined.


(** A run of X9. *)
Lemma single_label_probability_one_witness :
  fst (@app Lab.libs (Lab.similarity_request Toy.picture (Lab.one_label "shirt")) Lab.g)
  = Http200 (JsonSimilarity [1] ["shirt"]).
Proof.
  rewrite lab_shirt_response. do 2 f_equal.
  exact (single_label_probability_one (L := Lab.libs) Lab.g _ _ "shirt"
           lab_loaded lab_shirt_response).
Defined.




(** A run of X13: two strings in, the same two labels out. *)
Lemma labels_round_trip_witness :
  exists p,
    fst (@app Toy.libs (Toy.similarity_request Toy.two_labels) Toy.g)
    = Http200 (JsonSimilarity p ["shirt"; "dress"]).
Proof.
  destruct (labels_round_trip (L := Toy.libs) Toy.g
              (Toy.similarity_request Toy.two_labels) Toy.two_labels
              [("text_list", JArr [JStr "shirt"; JStr "dress"])] _
              toy_loaded eq_refl eq_refl eq_refl toy_similarity_response)
    as [items [p [labels [Hk [Hc [_ [_ Hback]]]]]]].
  injection Hk as <-.
  rewrite (Hback (fun x => eq_refl) ["shirt"; "dress"] eq_refl) in Hc.
  exists p. rewrite toy_similarity_response. f_equal. exact Hc.
Defined.

(** A run of X15. *)
Lemma no_shape_or_index_error_witness :
  fst (@compute_similarity Toy.libs Toy.picture Toy.two_labels Toy.g)
  <> Raise RuntimeError.
Proof.
  exact (proj1 (no_shape_or_index_error (L := Toy.libs) Toy.g Toy.picture
                  Toy.two_labels toy_loaded)).
Defined.


